(** * Dongoose: a document layer over Deno KV (src/schema.ts)

    A shallow embedding of [schema.ts].  The key-value store, the clock and
    the identifier source are the collaborators of the code; they are modelled
    here as an explicit store state, a time argument and an identifier
    argument.  Every call the code makes on the store is also appended to a
    log, so that "no read was issued" and "this is what was staged for the
    write" are statements about a run. *)

From Stdlib Require Import List String Ascii ZArith NArith Bool Lia.
From Stdlib Require Import Decimal DecimalString.
Import ListNotations.
Local Open Scope string_scope.
Local Open Scope list_scope.

(** ** JavaScript values

    The values a record can hold.  Numbers are the integer-valued ones (the
    timestamps of [Date.now()] are such); [Date], [Map], [Set], [bigint] and
    [Uint8Array] values are outside the model. *)

#[warnings="-register-all"]
Inductive value : Type :=
| VUndefined
| VNull
| VBool (b : bool)
| VNum (n : Z)
| VStr (s : string)
| VArr (items : list value)
| VObj (fields : list (string * value)).

(** A [Record<string, unknown>]: the own properties in insertion order. *)
Definition record : Type := list (string * value).

(** [Object.hasOwn(o, k)] with the value, when it is there. *)
Fixpoint own (o : record) (k : string) : option value :=
  match o with
  | [] => None
  | (k', v) :: rest => if String.eqb k' k then Some v else own rest k
  end.

(** [o[k]]: a property that is not there reads as [undefined]. *)
Definition get (o : record) (k : string) : value :=
  match own o k with
  | Some v => v
  | None => VUndefined
  end.

(** [o[k] = v]: an existing property keeps its place, a new one goes last. *)
Fixpoint set_field (o : record) (k : string) (v : value) : record :=
  match o with
  | [] => [(k, v)]
  | (k', v') :: rest =>
      if String.eqb k' k then (k', v) :: rest
      else (k', v') :: set_field rest k v
  end.

(** [{ ...base, ...extra }]: the properties of [extra] are assigned in order. *)
Definition spread (base extra : record) : record :=
  fold_left (fun acc kv => set_field acc (fst kv) (snd kv)) extra base.

(** [Object.keys(o).length === 0]. *)
Definition is_empty_object (o : record) : bool :=
  match o with
  | [] => true
  | _ :: _ => false
  end.

(** [a === b] between a value read back from the store and a value of the
    caller: primitives compare by value; two objects are only equal when they
    are the same reference, which a deserialised copy and a caller's object
    never are. *)
Definition strict_eq (a b : value) : bool :=
  match a, b with
  | VUndefined, VUndefined => true
  | VNull, VNull => true
  | VBool x, VBool y => Bool.eqb x y
  | VNum x, VNum y => Z.eqb x y
  | VStr x, VStr y => String.eqb x y
  | _, _ => false
  end.

Definition is_reference (v : value) : bool :=
  match v with
  | VArr _ | VObj _ => true
  | _ => false
  end.

(** Decimal rendering of an integer-valued number: what [toString()] gives
    for the integers a number holds exactly. *)
Definition string_of_Z (n : Z) : string :=
  NilZero.string_of_int (Z.to_int n).

(** [String(v)], with [Array.prototype.join] for arrays (where [null] and
    [undefined] items render as the empty string). *)
Fixpoint js_String (v : value) : string :=
  match v with
  | VUndefined => "undefined"
  | VNull => "null"
  | VBool true => "true"
  | VBool false => "false"
  | VNum n => string_of_Z n
  | VStr s => s
  | VArr items =>
      (fix join (l : list value) : string :=
         match l with
         | [] => ""
         | e :: rest =>
             String.append
               (match e with
                | VUndefined | VNull => ""
                | _ => js_String e
                end)
               (match rest with
                | [] => ""
                | _ :: _ => String.append "," (join rest)
                end)
         end) items
  | VObj _ => "[object Object]"
  end.

(** Errors a call can reject with. *)
Inductive error : Type :=
| ZodError
| TypeError.

(** [v.toString()]: reading a property of [undefined] or [null] throws. *)
Definition toString (v : value) : option string :=
  match v with
  | VUndefined | VNull => None
  | _ => Some (js_String v)
  end.

(** ** The key-value store (Deno KV)

    A key is an array of parts; the parts the model has are strings, numbers
    and booleans.  Any other value in a key makes the store call throw.  The
    size limits of the store (keys per batched read, checks and mutations
    per commit, bytes per key and per value) are outside the model. *)

Inductive KvKeyPart : Type :=
| KString (s : string)
| KNumber (n : Z)
| KBoolean (b : bool).

Definition KvKey : Type := list KvKeyPart.

(** A key as the code hands it to the store: an array of values. *)
Definition JsKey : Type := list value.

Definition encode_part (v : value) : option KvKeyPart :=
  match v with
  | VStr s => Some (KString s)
  | VNum n => Some (KNumber n)
  | VBool b => Some (KBoolean b)
  | _ => None
  end.

Fixpoint encode_key (k : JsKey) : option KvKey :=
  match k with
  | [] => Some []
  | v :: rest =>
      match encode_part v, encode_key rest with
      | Some p, Some ps => Some (p :: ps)
      | _, _ => None
      end
  end.

Fixpoint encode_keys (ks : list JsKey) : option (list KvKey) :=
  match ks with
  | [] => Some []
  | k :: rest =>
      match encode_key k, encode_keys rest with
      | Some e, Some es => Some (e :: es)
      | _, _ => None
      end
  end.

(** The order of keys: part by part, strings before numbers before booleans,
    a proper prefix before its extensions. *)
Definition part_compare (a b : KvKeyPart) : comparison :=
  match a, b with
  | KString x, KString y => String.compare x y
  | KString _, _ => Lt
  | KNumber _, KString _ => Gt
  | KNumber x, KNumber y => Z.compare x y
  | KNumber _, KBoolean _ => Lt
  | KBoolean x, KBoolean y => Bool.compare x y
  | KBoolean _, _ => Gt
  end.

Fixpoint key_compare (a b : KvKey) : comparison :=
  match a, b with
  | [], [] => Eq
  | [], _ :: _ => Lt
  | _ :: _, [] => Gt
  | x :: a', y :: b' =>
      match part_compare x y with
      | Eq => key_compare a' b'
      | c => c
      end
  end.

Definition versionstamp : Type := N.

(** The store: its entries in key order, and the last versionstamp issued. *)
Record Kv : Type := mkKv {
  entries : list (KvKey * (record * versionstamp));
  version : versionstamp
}.

Fixpoint lookup (k : KvKey) (l : list (KvKey * (record * versionstamp)))
  : option (record * versionstamp) :=
  match l with
  | [] => None
  | (k', e) :: rest =>
      match key_compare k k' with
      | Eq => Some e
      | _ => lookup k rest
      end
  end.

Fixpoint insert (k : KvKey) (e : record * versionstamp)
  (l : list (KvKey * (record * versionstamp)))
  : list (KvKey * (record * versionstamp)) :=
  match l with
  | [] => [(k, e)]
  | (k', e') :: rest =>
      match key_compare k k' with
      | Lt => (k, e) :: (k', e') :: rest
      | Eq => (k, e) :: rest
      | Gt => (k', e') :: insert k e rest
      end
  end.

Fixpoint remove (k : KvKey) (l : list (KvKey * (record * versionstamp)))
  : list (KvKey * (record * versionstamp)) :=
  match l with
  | [] => []
  | (k', e') :: rest =>
      match key_compare k k' with
      | Eq => remove k rest
      | _ => (k', e') :: remove k rest
      end
  end.

(** [p] is a proper prefix of [k]. *)
Fixpoint has_prefix (p k : KvKey) : bool :=
  match p, k with
  | [], [] => false
  | [], _ :: _ => true
  | _ :: _, [] => false
  | x :: p', y :: k' =>
      match part_compare x y with
      | Eq => has_prefix p' k'
      | _ => false
      end
  end.

(** [db.get(key)]. *)
Definition kv_get (db : Kv) (k : KvKey) : option record :=
  option_map fst (lookup k (entries db)).

Definition kv_versionstamp (db : Kv) (k : KvKey) : option versionstamp :=
  option_map snd (lookup k (entries db)).

(** [db.list({ prefix })]: the entries under the prefix, in key order. *)
Definition kv_list (db : Kv) (prefix : KvKey) : list (KvKey * record) :=
  map (fun e => (fst e, fst (snd e)))
      (filter (fun e => has_prefix prefix (fst e)) (entries db)).

(** *** Atomic operations

    [db.atomic()] collects checks and mutations; [commit()] applies all the
    mutations under one new versionstamp when every check holds, and changes
    nothing otherwise. *)

Record AtomicCheck : Type := mkCheck {
  check_key : JsKey;
  check_versionstamp : option versionstamp
}.

Inductive operation : Type :=
| OpSet
| OpDelete.

Record KvMutation : Type := mkMutation {
  mutation_type : operation;
  mutation_key : JsKey;
  mutation_value : record
}.

Record AtomicOperation : Type := mkAtomic {
  checks : list AtomicCheck;
  mutations : list KvMutation
}.

Inductive KvCommitResult : Type :=
| CommitOk (v : versionstamp)    (* { ok: true, versionstamp } *)
| CommitFailed.                  (* { ok: false } *)

Definition versionstamp_eqb (a b : option versionstamp) : bool :=
  match a, b with
  | None, None => true
  | Some x, Some y => N.eqb x y
  | _, _ => false
  end.

Definition check_holds (db : Kv) (c : KvKey * option versionstamp) : bool :=
  versionstamp_eqb (kv_versionstamp db (fst c)) (snd c).

Definition apply_mutation (v : versionstamp)
  (l : list (KvKey * (record * versionstamp)))
  (m : operation * KvKey * record)
  : list (KvKey * (record * versionstamp)) :=
  match m with
  | (OpSet, k, r) => insert k (r, v) l
  | (OpDelete, k, _) => remove k l
  end.

Definition apply_mutations (v : versionstamp)
  (ms : list (operation * KvKey * record))
  (l : list (KvKey * (record * versionstamp)))
  : list (KvKey * (record * versionstamp)) :=
  fold_left (apply_mutation v) ms l.

Fixpoint encode_checks (cs : list AtomicCheck)
  : option (list (KvKey * option versionstamp)) :=
  match cs with
  | [] => Some []
  | c :: rest =>
      match encode_key (check_key c), encode_checks rest with
      | Some k, Some ks => Some ((k, check_versionstamp c) :: ks)
      | _, _ => None
      end
  end.

Fixpoint encode_mutations (ms : list KvMutation)
  : option (list (operation * KvKey * record)) :=
  match ms with
  | [] => Some []
  | m :: rest =>
      match encode_key (mutation_key m), encode_mutations rest with
      | Some k, Some ks => Some ((mutation_type m, k, mutation_value m) :: ks)
      | _, _ => None
      end
  end.

(** [commit()] on the store: [None] is the [TypeError] of a key that cannot
    be encoded. *)
Definition kv_commit (db : Kv) (op : AtomicOperation)
  : option (KvCommitResult * Kv) :=
  match encode_checks (checks op), encode_mutations (mutations op) with
  | Some cs, Some ms =>
      if forallb (check_holds db) cs then
        let v := N.succ (version db) in
        Some (CommitOk v, mkKv (apply_mutations v ms (entries db)) v)
      else Some (CommitFailed, db)
  | _, _ => None
  end.

(** ** Runs

    A run threads the store and the log of the store calls made so far; it
    ends with a value or with a thrown error. *)

Inductive KvCall : Type :=
| CallGetMany (keys : list JsKey)
| CallList (prefix : JsKey)
| CallCommit (op : AtomicOperation).

Record World : Type := mkWorld {
  kv : Kv;
  calls : list KvCall
}.

Inductive outcome (A : Type) : Type :=
| Return (a : A)
| Throw (e : error).
Arguments Return {A} a.
Arguments Throw {A} e.

Definition Async (A : Type) : Type := World -> outcome A * World.

Definition ret {A} (a : A) : Async A := fun w => (Return a, w).

Definition throw {A} (e : error) : Async A := fun w => (Throw e, w).

Definition bind {A B} (m : Async A) (k : A -> Async B) : Async B :=
  fun w =>
    match m w with
    | (Return a, w') => k a w'
    | (Throw e, w') => (Throw e, w')
    end.

Notation "x <- m ;; k" := (bind m (fun x => k))
  (at level 61, m at next level, right associativity).
Notation "m ;;; k" := (bind m (fun _ => k))
  (at level 61, right associativity).

Definition record_call (c : KvCall) (w : World) : World :=
  mkWorld (kv w) (calls w ++ [c]).

(** [await db.getMany(keys)]. *)
Definition db_getMany (keys : list JsKey) : Async (list (option record)) :=
  fun w =>
    let w' := record_call (CallGetMany keys) w in
    match encode_keys keys with
    | Some ks => (Return (map (kv_get (kv w)) ks), w')
    | None => (Throw TypeError, w')
    end.

(** [db.list({ prefix })], read to its end. *)
Definition db_list (prefix : JsKey) : Async (list (KvKey * record)) :=
  fun w =>
    let w' := record_call (CallList prefix) w in
    match encode_key prefix with
    | Some p => (Return (kv_list (kv w) p), w')
    | None => (Throw TypeError, w')
    end.

(** [transaction.commit()]. *)
Definition db_commit (op : AtomicOperation) : Async KvCommitResult :=
  fun w =>
    match kv_commit (kv w) op with
    | Some (r, db') => (Return r, mkWorld db' (calls w ++ [CallCommit op]))
    | None => (Throw TypeError, record_call (CallCommit op) w)
    end.

(** ** Shape validation (zod)

    A shape maps field names to validators.  [z.object(shape).parse(data)]
    runs every declared validator on the field's value ([undefined] when the
    field is not there) and lets undeclared fields pass; it throws when a
    validator rejects. *)

Definition ZodType : Type := value -> bool.
Definition ZodRawShape : Type := list (string * ZodType).

Definition z_object (shape : ZodRawShape) (data : record) : bool :=
  forallb (fun f => snd f (get data (fst f))) shape.

(** [.extend(ext)]: the fields of [ext] replace those of the same name. *)
Definition extend (shape ext : ZodRawShape) : ZodRawShape :=
  filter (fun f => negb (existsb (String.eqb (fst f)) (map fst ext))) shape
  ++ ext.

Definition optional (t : ZodType) : ZodType :=
  fun v =>
    match v with
    | VUndefined => true
    | _ => t v
    end.

(** [.partial()]: every field becomes optional. *)
Definition partial (shape : ZodRawShape) : ZodRawShape :=
  map (fun f => (fst f, optional (snd f))) shape.

Definition z_number_int : ZodType :=
  fun v =>
    match v with
    | VNum _ => true
    | _ => false
    end.

Definition parse (shape : ZodRawShape) (data : record) : Async unit :=
  if z_object shape data then ret tt else throw ZodError.

(** ** Helpers of schema.ts *)

(** [getKeysWithIndexes]: the template [`${name}_by_${index}`]. *)
Definition getKeysWithIndexes (name index : string) : string :=
  String.append name (String.append "_by_" index).

(** [updateTimestamps(data, isInsertion)] at time [now]. *)
Definition updateTimestamps (data : record) (isInsertion : bool) (now : Z)
  : record :=
  let data := if isInsertion then set_field data "createdAt" (VNum now)
              else data in
  set_field data "updatedAt" (VNum now).

Definition is_set (op : operation) : bool :=
  match op with
  | OpSet => true
  | OpDelete => false
  end.

(** The key of the first loop of [performTransaction]: the field's value as
    it is. *)
Definition checkKey (schemaName : string) (data : record) (index : string)
  : JsKey :=
  [VStr schemaName; VStr (getKeysWithIndexes schemaName index);
   get data index].

(** The key of the second loop: the field's value through [toString()];
    [None] when that throws. *)
Definition mutationKey (schemaName : string) (data : record) (index : string)
  : option JsKey :=
  match toString (get data index) with
  | Some s =>
      Some [VStr schemaName; VStr (getKeysWithIndexes schemaName index);
            VStr s]
  | None => None
  end.

Definition stageChecks (schemaName : string) (primaryIndexes : list string)
  (data : record) : list AtomicCheck :=
  map (fun index => mkCheck (checkKey schemaName data index) None)
      primaryIndexes.

Fixpoint stageMutations (schemaName : string) (primaryIndexes : list string)
  (data : record) (op : operation) : option (list KvMutation) :=
  match primaryIndexes with
  | [] => Some []
  | index :: rest =>
      match mutationKey schemaName data index with
      | Some k =>
          match stageMutations schemaName rest data op with
          | Some ms => Some (mkMutation op k data :: ms)
          | None => None
          end
      | None => None
      end
  end.

(** [performTransaction(db, schemaName, primaryIndexes, data, operation)] at
    time [now]. *)
Definition performTransaction (schemaName : string)
  (primaryIndexes : list string) (data : record) (op : operation) (now : Z)
  : Async KvCommitResult :=
  let data := updateTimestamps data (is_set op) now in
  let cs := stageChecks schemaName primaryIndexes data in
  match stageMutations schemaName primaryIndexes data op with
  | Some ms => db_commit (mkAtomic cs ms)
  | None => throw TypeError
  end.

(** [new Set(...)] takes the elements one by one and keeps those it does not
    hold yet. *)
Definition js_set_step (acc : list string) (x : string) : list string :=
  if existsb (String.eqb x) acc then acc else acc ++ [x].

(** [[...new Set(l)]]: the first occurrence of each element, in order. *)
Definition js_set (l : list string) : list string :=
  fold_left js_set_step l [].

(** [results.find((result) => result.value)?.value ?? null]. *)
Fixpoint first_value (results : list (option record)) : option record :=
  match results with
  | [] => None
  | Some r :: _ => Some r
  | None :: rest => first_value rest
  end.

(** *** The loop of [find]

    [resultMap] is keyed by [entry.value.id].  A [Map] compares keys with
    SameValueZero: primitives by value, objects by reference.  The objects
    that reach the map are the [id] properties of separately deserialised
    entries, so two of them are one reference exactly when they come from the
    same entry; the entry's position in the scan stands for the reference. *)

Definition MapKey : Type := (nat * value)%type.

Definition same_value_zero (a b : MapKey) : bool :=
  if is_reference (snd a) && is_reference (snd b)
  then Nat.eqb (fst a) (fst b)
  else strict_eq (snd a) (snd b).

Definition map_has (resultMap : list MapKey) (k : MapKey) : bool :=
  existsb (same_value_zero k) resultMap.

Definition FindState : Type := (list record * list MapKey)%type.

(** The body of the [for await] loop for one entry: the callback of
    [Object.entries(query).map] on every queried field. *)
Definition find_entry (query : record) (i : nat) (entry : record)
  (st : FindState) : FindState :=
  fold_left
    (fun st kv =>
       if strict_eq (get entry (fst kv)) (snd kv) then
         if negb (map_has (snd st) (i, get entry "id")) then
           (fst st ++ [entry], snd st ++ [(i, get entry "id")])
         else st
       else st)
    query st.

Fixpoint find_loop (query : record) (i : nat) (scan : list (KvKey * record))
  (st : FindState) : FindState :=
  match scan with
  | [] => st
  | e :: rest => find_loop query (S i) rest (find_entry query i (snd e) st)
  end.

(** ** [Dongoose(schema, { db, name, primaryIndexes, secondaryIndexes })] *)

Section Dongoose.

(** [z.string().uuid()] on strings, and [deepMerge] of the standard
    library: both are imported. *)
Variable uuid : string -> bool.
Variable deepMerge : record -> record -> record.

Variable schema : ZodRawShape.
Variable name : string.
Variable primaryIndexes : option (list string).
Variable secondaryIndexes : option (list string).

Definition z_string_uuid : ZodType :=
  fun v =>
    match v with
    | VStr s => uuid s
    | _ => false
    end.

Definition or_empty (l : option (list string)) : list string :=
  match l with
  | Some l => l
  | None => []
  end.

Definition schemaPrimaryIndexes : list string :=
  js_set (or_empty primaryIndexes ++ ["id"]).


Definition schemaValidationObject : ZodRawShape := schema.

Definition schemaValidationObjectWithId : ZodRawShape :=
  extend schemaValidationObject [("id", z_string_uuid)].

Definition schemaValidationFullObject : ZodRawShape :=
  extend schemaValidationObjectWithId
    [("id", z_string_uuid); ("createdAt", z_number_int);
     ("updatedAt", z_number_int)].

Definition schemaValidationPartialObject : ZodRawShape :=
  partial schemaValidationObject.

Definition schemaValidationPartialObjectWithId : ZodRawShape :=
  partial (extend schemaValidationObjectWithId [("id", z_string_uuid)]).

(** [create(data)], with [id] the result of [crypto.randomUUID()]. *)
Definition create (data : record) (id : string) (now : Z)
  : Async KvCommitResult :=
  parse schemaValidationObject data ;;;
  performTransaction name schemaPrimaryIndexes
    (spread [("id", VStr id)] data) OpSet now.

Definition findOne (query : record) : Async (option record) :=
  parse schemaValidationPartialObjectWithId query ;;;
  if is_empty_object query then ret None
  else
    results <- db_getMany
                 (map (fun kv =>
                         [VStr name;
                          VStr (getKeysWithIndexes name (fst kv));
                          snd kv])
                      query) ;;
    ret (first_value results).

Definition find (query : record) : Async (option (list record)) :=
  parse schemaValidationPartialObjectWithId query ;;;
  if is_empty_object query then ret None
  else
    scan <- db_list [VStr name] ;;
    ret (Some (fst (find_loop query 0 scan ([], [])))).

(** The identifier arrives as a value: the [string] annotation is erased at
    run time and [updateOne] passes [item.id] as it finds it. *)
Definition findById (id : value) : Async (option record) :=
  findOne [("id", id)].

Definition updateById (id : value) (data : record) (now : Z)
  : Async (option KvCommitResult) :=
  parse schemaValidationPartialObject data ;;;
  item <- findOne [("id", id)] ;;
  match item with
  | None => ret None
  | Some item =>
      r <- performTransaction name schemaPrimaryIndexes
             (deepMerge item data) OpSet now ;;
      ret (Some r)
  end.

Definition updateOne (query data : record) (now : Z)
  : Async (option KvCommitResult) :=
  parse schemaValidationPartialObject data ;;;
  item <- findOne query ;;
  match item with
  | None => ret None
  | Some item => updateById (get item "id") data now
  end.

Definition deleteById (id : value) (now : Z)
  : Async (option KvCommitResult) :=
  item <- findOne [("id", id)] ;;
  match item with
  | None => ret None
  | Some item =>
      r <- performTransaction name schemaPrimaryIndexes item OpDelete now ;;
      ret (Some r)
  end.

Definition deleteOne (query : record) (now : Z)
  : Async (option KvCommitResult) :=
  item <- findOne query ;;
  match item with
  | None => ret None
  | Some item =>
      r <- performTransaction name schemaPrimaryIndexes item OpDelete now ;;
      ret (Some r)
  end.

End Dongoose.

(** ** The imported functions, for running the code

    [deepMerge] of std@0.192.0 with its default options: the keys of the left
    record, then the new keys of the right one; where both sides hold a plain
    object the two are merged recursively, where both hold an array the
    arrays are concatenated, and otherwise the right value wins. *)

Fixpoint std_mergeValue (a b : value) {struct a} : value :=
  match a, b with
  | VObj fa, VObj fb =>
      VObj
        ((fix left (l : list (string * value)) : list (string * value) :=
            match l with
            | [] => []
            | (k, va) :: rest =>
                (k, match own fb k with
                    | Some vb => std_mergeValue va vb
                    | None => va
                    end) :: left rest
            end) fa
         ++ filter (fun f => match own fa (fst f) with
                             | Some _ => false
                             | None => true
                             end) fb)
  | VArr la, VArr lb => VArr (la ++ lb)
  | _, _ => b
  end.

Definition std_deepMerge (rec other : record) : record :=
  match std_mergeValue (VObj rec) (VObj other) with
  | VObj fields => fields
  | _ => other
  end.

(** [z.string().uuid()] of zod 3.21.4: five groups of hexadecimal digits, the
    third starting with a digit from 1 to 5; or the nil identifier. *)

Inductive uuid_class : Type :=
| Hex
| Dash
| Version.

Definition in_range (lo hi c : ascii) : bool :=
  (nat_of_ascii lo <=? nat_of_ascii c)%nat
  && (nat_of_ascii c <=? nat_of_ascii hi)%nat.

Definition in_class (cl : uuid_class) (c : ascii) : bool :=
  match cl with
  | Hex => in_range "0" "9" c || in_range "a" "f" c || in_range "A" "F" c
  | Dash => Ascii.eqb c "-"
  | Version => in_range "1" "5" c
  end.

Fixpoint matches (pattern : list uuid_class) (s : string) : bool :=
  match pattern, s with
  | [], EmptyString => true
  | cl :: pattern', String c s' => in_class cl c && matches pattern' s'
  | _, _ => false
  end.

Definition uuid_pattern : list uuid_class :=
  repeat Hex 8 ++ [Dash] ++ repeat Hex 4 ++ [Dash] ++
  [Version] ++ repeat Hex 3 ++ [Dash] ++ repeat Hex 4 ++ [Dash] ++
  repeat Hex 12.

Definition zod_uuid (s : string) : bool :=
  matches uuid_pattern s
  || String.eqb s "00000000-0000-0000-0000-000000000000".

Definition z_string : ZodType :=
  fun v =>
    match v with
    | VStr _ => true
    | _ => false
    end.

(** ** A collection to run: [users], unique by [email] *)

Module Users.

Definition schema : ZodRawShape := [("email", z_string)].
Definition name : string := "users".
Definition primaryIndexes : option (list string) := Some ["email"].

Definition create := create schema name primaryIndexes.
Definition findOne := findOne zod_uuid schema name.
Definition find := find zod_uuid schema name.
Definition findById := findById zod_uuid schema name.
Definition updateById :=
  updateById zod_uuid std_deepMerge schema name primaryIndexes.
Definition deleteById := deleteById zod_uuid schema name primaryIndexes.

Definition U1 : string := "3b241101-e2bb-4255-8caf-4136c566a962".
Definition U2 : string := "9c5b94b1-35ad-49bb-b118-8e8fc24abf80".
Definition U3 : string := "6fa459ea-ee8a-3ca4-894e-db77e160355e".

Definition empty : World := mkWorld (mkKv [] 0%N) [].

(** The store after [create({ email: "a@x.com" })] at time 1000. *)
Definition after_create : World :=
  snd (create [("email", VStr "a@x.com")] U1 1000 empty).

End Users.

(** ** [deleteAll]

    [db.list] hands out keys as the store holds them; [deleteAll] gives each
    one back to [db.delete]. *)

Definition decode_part (p : KvKeyPart) : value :=
  match p with
  | KString s => VStr s
  | KNumber n => VNum n
  | KBoolean b => VBool b
  end.

Definition decode_key (k : KvKey) : JsKey := map decode_part k.

(** [await db.delete(key)]: the store client issues it as an atomic write
    of one delete mutation without checks, and it is logged as that. *)
Definition db_delete (key : JsKey) : Async unit :=
  db_commit (mkAtomic [] [mkMutation OpDelete key []]) ;;; ret tt.

(** The body of the [for await] loop of [deleteAll], entry after entry.
    The iterator reads the scan in batches; deleting entries it has already
    handed out does not change what is left to read, so the scan is taken as
    read to its end. *)
Fixpoint delete_each (scan : list (KvKey * record)) : Async unit :=
  match scan with
  | [] => ret tt
  | entry :: rest => db_delete (decode_key (fst entry)) ;;; delete_each rest
  end.

(** [deleteAll()] of the collection [name]. *)
Definition deleteAll (name : string) : Async unit :=
  scan <- db_list [VStr name] ;;
  delete_each scan.

(** ** A collection indexed by a number: [people], unique by [age] *)

Module People.

Definition schema : ZodRawShape := [("age", z_number_int)].
Definition name : string := "people".
Definition primaryIndexes : option (list string) := Some ["age"].

Definition P1 : string := "0b0aa4f0-7c3c-4d0e-9a57-5f1f0a3f6c11".
Definition P2 : string := "5d3c2f9e-1a4b-4c6d-8e7f-2b1a0c9d8e7f".

(** The store after [create({ age: 30 })] at time 1000. *)
Definition after_create : World :=
  snd (create schema name primaryIndexes [("age", VNum 30)] P1 1000
         (mkWorld (mkKv [] 0%N) [])).

End People.

(** ** Definitions used by the statements *)

Definition is_string (v : value) : bool :=
  match v with
  | VStr _ => true
  | _ => false
  end.

(** The store key of the projection of a record on [index], for a field
    value that is the string [s]. *)
Definition physicalKey (name index s : string) : KvKey :=
  [KString name; KString (getKeysWithIndexes name index); KString s].

(** A value the store accepts as a key part. *)
Definition usable (v : value) : bool :=
  match encode_part v with
  | Some _ => true
  | None => false
  end.

(** The record [create] writes: [{ id, ...data }], stamped. *)
Definition newRecord (id : string) (data : record) (now : Z) : record :=
  updateTimestamps (spread [("id", VStr id)] data) true now.

Definition succeeded (r : outcome KvCommitResult) : bool :=
  match r with
  | Return (CommitOk _) => true
  | _ => false
  end.

Definition conflict (r : outcome KvCommitResult) : bool :=
  match r with
  | Return CommitFailed => true
  | _ => false
  end.

(** Of two commits, one succeeded and the other was refused. *)
Definition exactly_one_succeeds (r1 r2 : outcome KvCommitResult) : bool :=
  (succeeded r1 && conflict r2) || (conflict r1 && succeeded r2).

(** *** What [find] is said to return

    The scanned records of which at least one queried field matches, each
    identifier once (its first occurrence), in the order of the scan. *)

Definition matches_any (query entry : record) : bool :=
  existsb (fun kv => strict_eq (get entry (fst kv)) (snd kv)) query.

(** The entries of a scan with their positions, from [i] on. *)
Fixpoint number (i : nat) (scan : list record) : list (nat * record) :=
  match scan with
  | [] => []
  | e :: rest => (i, e) :: number (S i) rest
  end.

Fixpoint dedup_by_id (seen : list MapKey) (l : list (nat * record))
  : list record :=
  match l with
  | [] => []
  | (i, e) :: rest =>
      if map_has seen (i, get e "id") then dedup_by_id seen rest
      else e :: dedup_by_id (seen ++ [(i, get e "id")]) rest
  end.

Definition matching_once (query : record) (scan : list record)
  : list record :=
  dedup_by_id []
    (filter (fun ie => matches_any query (snd ie)) (number 0 scan)).

(** The store entries after the removal of each of the keys [ks]. *)
Definition remove_each (ks : list KvKey)
  (l : list (KvKey * (record * versionstamp)))
  : list (KvKey * (record * versionstamp)) :=
  fold_left (fun l k => remove k l) ks l.

(** None of the keys that the transaction of the record [d] checks is held
    by the store. *)
Definition free_keys (name : string) (indexes : list string) (d : record)
  (db : Kv) : Prop :=
  forall index p,
    In index indexes ->
    encode_part (get d index) = Some p ->
    kv_versionstamp db
      [KString name; KString (getKeysWithIndexes name index); p] = None.

(** Every primary index value of the record [d] can be used in a key. *)
Definition usable_indexes (indexes : list string) (d : record) : Prop :=
  Forall (fun index => usable (get d index) = true) indexes.

(** [Number.isSafeInteger(n)]: the integers a number holds exactly, all of
    which [toString()] renders in plain decimal. *)
Definition safe_integer (n : Z) : Prop :=
  (Z.abs n <= 9007199254740991)%Z.

(** A field name made of digits only.  Such names are the ones an object
    lists before the others, whatever the order they were written in. *)
Fixpoint all_digits (k : string) : bool :=
  match k with
  | EmptyString => true
  | String c rest => in_range "0" "9" c && all_digits rest
  end.

Definition integer_like (k : string) : bool :=
  match k with
  | EmptyString => false
  | _ => all_digits k
  end.

(** * Properties *)

(** ** The order of keys decides their equality *)

Lemma string_compare_refl (s : string) : String.compare s s = Eq.
Proof.
  induction s as [| c s IH]; simpl; [reflexivity |].
  unfold Ascii.compare. rewrite N.compare_refl. exact IH.
Qed.

Lemma part_compare_refl (p : KvKeyPart) : part_compare p p = Eq.
Proof.
  destruct p as [s | n | b]; simpl.
  - apply string_compare_refl.
  - apply Z.compare_refl.
  - destruct b; reflexivity.
Qed.

Lemma part_compare_eq (p q : KvKeyPart) : part_compare p q = Eq -> p = q.
Proof.
  destruct p as [s | n | b], q as [s' | n' | b']; simpl; try discriminate.
  - intros H. apply String.compare_eq_iff in H. now subst.
  - intros H. apply Z.compare_eq in H. now subst.
  - destruct b, b'; simpl; intros H; try discriminate; reflexivity.
Qed.

Lemma key_compare_refl (k : KvKey) : key_compare k k = Eq.
Proof.
  induction k as [| p k IH]; simpl; [reflexivity |].
  now rewrite part_compare_refl.
Qed.

Lemma key_compare_eq (a b : KvKey) : key_compare a b = Eq -> a = b.
Proof.
  revert b. induction a as [| x a IH]; intros [| y b]; simpl;
    try discriminate; [reflexivity |].
  destruct (part_compare x y) eqn:E; try discriminate.
  intros H. apply part_compare_eq in E. apply IH in H. now subst.
Qed.

Lemma key_compare_neq (a b : KvKey) : a <> b -> key_compare a b <> Eq.
Proof. intros N E. apply N. now apply key_compare_eq. Qed.

(** ** Reading the store after a write *)

Lemma lookup_insert (k : KvKey) e l : lookup k (insert k e l) = Some e.
Proof.
  induction l as [| [k' e'] l IH]; simpl.
  - now rewrite key_compare_refl.
  - destruct (key_compare k k') eqn:E; simpl.
    + now rewrite key_compare_refl.
    + now rewrite key_compare_refl.
    + now rewrite E.
Qed.

Lemma lookup_insert_other (k k0 : KvKey) e l :
  k0 <> k -> lookup k0 (insert k e l) = lookup k0 l.
Proof.
  intros N. pose proof (key_compare_neq _ _ N) as Nc.
  induction l as [| [k' e'] l IH]; simpl.
  - destruct (key_compare k0 k); congruence.
  - destruct (key_compare k k') eqn:E; simpl.
    + apply key_compare_eq in E. subst k'.
      destruct (key_compare k0 k); congruence.
    + destruct (key_compare k0 k); congruence.
    + destruct (key_compare k0 k'); [reflexivity | exact IH | exact IH].
Qed.

Lemma lookup_remove (k : KvKey) l : lookup k (remove k l) = None.
Proof.
  induction l as [| [k' e'] l IH]; simpl; [reflexivity |].
  destruct (key_compare k k') eqn:E; simpl; [exact IH | |];
    now rewrite E.
Qed.

Lemma lookup_remove_other (k k0 : KvKey) l :
  k0 <> k -> lookup k0 (remove k l) = lookup k0 l.
Proof.
  intros N. induction l as [| [k' e'] l IH]; simpl; [reflexivity |].
  destruct (key_compare k k') eqn:E; simpl.
  - apply key_compare_eq in E. subst k'.
    pose proof (key_compare_neq _ _ N).
    destruct (key_compare k0 k); congruence.
  - destruct (key_compare k0 k'); [reflexivity | exact IH | exact IH].
  - destruct (key_compare k0 k'); [reflexivity | exact IH | exact IH].
Qed.

(** ** Records *)

Lemma string_eqb_neq (a b : string) : a <> b -> String.eqb a b = false.
Proof. intros N. now apply String.eqb_neq. Qed.

Lemma own_set_field (o : record) k v : own (set_field o k v) k = Some v.
Proof.
  induction o as [| [k' v'] o IH]; simpl.
  - now rewrite String.eqb_refl.
  - destruct (String.eqb k' k) eqn:E; simpl; now rewrite E.
Qed.

Lemma own_set_field_other (o : record) k k0 v :
  k0 <> k -> own (set_field o k v) k0 = own o k0.
Proof.
  intros N. induction o as [| [k' v'] o IH]; simpl.
  - rewrite string_eqb_neq; [reflexivity | congruence].
  - destruct (String.eqb k' k) eqn:E; simpl.
    + apply String.eqb_eq in E. subst k'.
      now rewrite !string_eqb_neq by congruence.
    + destruct (String.eqb k' k0); [reflexivity | exact IH].
Qed.

Lemma get_set_field (o : record) k v : get (set_field o k v) k = v.
Proof. unfold get. now rewrite own_set_field. Qed.

Lemma get_set_field_other (o : record) k k0 v :
  k0 <> k -> get (set_field o k v) k0 = get o k0.
Proof. intros N. unfold get. now rewrite own_set_field_other. Qed.

(** A new field goes last. *)
Lemma set_field_fresh (o : record) k v :
  own o k = None -> set_field o k v = o ++ [(k, v)].
Proof.
  induction o as [| [k' v'] o IH]; simpl; [reflexivity |].
  destruct (String.eqb k' k); [discriminate |].
  intros H. now rewrite IH.
Qed.

Lemma own_app (a b : record) k :
  own (a ++ b) k = match own a k with Some v => Some v | None => own b k end.
Proof.
  induction a as [| [k' v'] a IH]; simpl; [reflexivity |].
  destruct (String.eqb k' k); [reflexivity | exact IH].
Qed.

(** ** The effective index sets *)

Lemma existsb_eqb_In (x : string) (l : list string) :
  existsb (String.eqb x) l = true <-> In x l.
Proof.
  rewrite existsb_exists. split.
  - intros [y [Hy E]]. apply String.eqb_eq in E. now subst.
  - intros H. exists x. split; [exact H | apply String.eqb_refl].
Qed.

Lemma js_set_step_In acc x y :
  In y (js_set_step acc x) <-> In y acc \/ y = x.
Proof.
  unfold js_set_step. destruct (existsb (String.eqb x) acc) eqn:E.
  - apply existsb_eqb_In in E. split; [tauto |].
    intros [H | H]; [exact H | now subst].
  - rewrite in_app_iff. simpl. intuition.
Qed.

Lemma js_set_step_NoDup acc x : NoDup acc -> NoDup (js_set_step acc x).
Proof.
  intros H. unfold js_set_step.
  destruct (existsb (String.eqb x) acc) eqn:E; [exact H |].
  apply NoDup_app; [exact H | repeat constructor; intros [] |].
  intros y Hy [Hx | []]. subst y.
  assert (existsb (String.eqb x) acc = true) by now apply existsb_eqb_In.
  congruence.
Qed.

Lemma fold_js_set_In l : forall acc y,
  In y (fold_left js_set_step l acc) <-> In y acc \/ In y l.
Proof.
  induction l as [| x l IH]; intros acc y; simpl; [tauto |].
  rewrite IH, js_set_step_In. intuition congruence.
Qed.

Lemma fold_js_set_NoDup l : forall acc,
  NoDup acc -> NoDup (fold_left js_set_step l acc).
Proof.
  induction l as [| x l IH]; intros acc H; simpl; [exact H |].
  apply IH. now apply js_set_step_NoDup.
Qed.

Lemma js_set_In l y : In y (js_set l) <-> In y l.
Proof.
  unfold js_set. rewrite fold_js_set_In. simpl. tauto.
Qed.

Lemma js_set_NoDup l : NoDup (js_set l).
Proof.
  unfold js_set. apply fold_js_set_NoDup. constructor.
Qed.

Lemma id_in_schemaPrimaryIndexes p : In "id" (schemaPrimaryIndexes p).
Proof.
  unfold schemaPrimaryIndexes. apply js_set_In, in_or_app.
  right. now left.
Qed.

Lemma stageMutations_length schemaName data op : forall indexes ms,
  stageMutations schemaName indexes data op = Some ms ->
  List.length ms = List.length indexes.
Proof.
  induction indexes as [| i indexes IH]; simpl; intros ms H.
  - now inversion H.
  - destruct (mutationKey schemaName data i); [| discriminate].
    destruct (stageMutations schemaName indexes data op) eqn:E;
      [| discriminate].
    inversion H. simpl. f_equal. now apply IH.
Qed.

Lemma schemaPrimaryIndexes_nonempty p :
  (1 <= List.length (schemaPrimaryIndexes p))%nat /\
  NoDup (schemaPrimaryIndexes p).
Proof.
  split; [| apply js_set_NoDup].
  pose proof (id_in_schemaPrimaryIndexes p) as H.
  destruct (schemaPrimaryIndexes p); [destruct H | simpl; lia].
Qed.


(** ** Empty queries *)

Lemma z_object_partial_empty (shape : ZodRawShape) :
  z_object (partial shape) [] = true.
Proof.
  unfold z_object, partial. rewrite forallb_forall.
  intros f Hf. apply in_map_iff in Hf. destruct Hf as [g [<- _]].
  reflexivity.
Qed.

(** C7.  [findOne({})] and [find({})] return [null], and the run makes no
    call on the store: the log of store calls and the store are as they
    were. *)
Theorem empty_query_returns_null_without_reading :
  forall uuid schema name (w : World),
    findOne uuid schema name [] w = (Return None, w) /\
    find uuid schema name [] w = (Return None, w).
Proof.
  intros uuid schema name w.
  unfold findOne, find, parse, schemaValidationPartialObjectWithId, bind.
  rewrite z_object_partial_empty. simpl. split; reflexivity.
Qed.

(** ** What [performTransaction] stages *)

Lemma stageMutations_nth schemaName data op : forall indexes ms i index,
  stageMutations schemaName indexes data op = Some ms ->
  nth_error indexes i = Some index ->
  exists k, mutationKey schemaName data index = Some k /\
            nth_error ms i = Some (mkMutation op k data).
Proof.
  induction indexes as [| x indexes IH]; intros ms i index H Hi.
  - destruct i; discriminate.
  - simpl in H.
    destruct (mutationKey schemaName data x) as [k |] eqn:Ek; [| discriminate].
    destruct (stageMutations schemaName indexes data op) as [ms' |] eqn:E;
      [| discriminate].
    inversion H; subst ms. destruct i as [| i]; simpl in *.
    + inversion Hi; subst x. now exists k.
    + now apply (IH ms').
Qed.

(** A call of [performTransaction] that returns has made one store call: the
    commit of the checks and mutations staged from the stamped record. *)
Lemma performTransaction_returns schemaName indexes data op now w r w' :
  performTransaction schemaName indexes data op now w = (Return r, w') ->
  exists ms,
    stageMutations schemaName indexes
      (updateTimestamps data (is_set op) now) op = Some ms /\
    calls w' =
      calls w ++
      [CallCommit
         (mkAtomic
            (stageChecks schemaName indexes
               (updateTimestamps data (is_set op) now)) ms)].
Proof.
  unfold performTransaction.
  destruct (stageMutations schemaName indexes
              (updateTimestamps data (is_set op) now) op) as [ms |];
    [| discriminate].
  unfold db_commit. intros H. exists ms. split; [reflexivity |].
  destruct (kv_commit (kv w) _) as [[r' db'] |];
    inversion H; reflexivity.
Qed.

(** C10.  In the atomic operation that [performTransaction] commits, the
    check and the mutation staged for a primary index whose value is a string
    are on one and the same key, [[name, name_by_index, value]].  When the
    value is not a string, the check is on the raw value and the mutation on
    its string conversion, and the two are different physical keys. *)
Theorem check_key_and_mutation_key :
  forall schemaName indexes data op now w r w',
    performTransaction schemaName indexes data op now w = (Return r, w') ->
    let d := updateTimestamps data (is_set op) now in
    exists cs ms,
      calls w' = calls w ++ [CallCommit (mkAtomic cs ms)] /\
      forall i index,
        nth_error indexes i = Some index ->
        exists c m,
          nth_error cs i = Some c /\ nth_error ms i = Some m /\
          (forall s, get d index = VStr s ->
             check_key c =
               [VStr schemaName; VStr (getKeysWithIndexes schemaName index);
                VStr s] /\
             mutation_key m = check_key c) /\
          (is_string (get d index) = false ->
             mutation_key m <> check_key c /\
             encode_key (mutation_key m) <> encode_key (check_key c)).
Proof.
  intros schemaName indexes data op now w r w' H d.
  destruct (performTransaction_returns _ _ _ _ _ _ _ _ H) as [ms [Hms Hc]].
  fold d in Hms, Hc.
  exists (stageChecks schemaName indexes d), ms. split; [exact Hc |].
  intros i index Hi.
  destruct (stageMutations_nth _ _ _ _ _ _ _ Hms Hi) as [k [Hk Hn]].
  exists (mkCheck (checkKey schemaName d index) None), (mkMutation op k d).
  split; [| split; [exact Hn |]].
  - unfold stageChecks. rewrite nth_error_map, Hi. reflexivity.
  - unfold mutationKey in Hk. simpl. unfold checkKey. split.
    + intros s Hs. rewrite Hs in *. simpl in Hk. inversion Hk. now split.
    + intros Hv. destruct (toString (get d index)) as [s |]; [| discriminate].
      inversion Hk; subst k.
      destruct (get d index); simpl in *; try discriminate;
        split; congruence.
Qed.

Lemma check_key_and_mutation_key_witness :
  exists cs ms,
    calls Users.after_create = [] ++ [CallCommit (mkAtomic cs ms)] /\
    forall i index,
      nth_error ["email"; "id"] i = Some index ->
      exists c m,
        nth_error cs i = Some c /\ nth_error ms i = Some m /\
        (forall s,
            get (updateTimestamps
                   [("id", VStr Users.U1); ("email", VStr "a@x.com")]
                   true 1000) index = VStr s ->
            check_key c =
              [VStr "users"; VStr (getKeysWithIndexes "users" index);
               VStr s] /\
            mutation_key m = check_key c) /\
        (is_string
           (get (updateTimestamps
                   [("id", VStr Users.U1); ("email", VStr "a@x.com")]
                   true 1000) index) = false ->
         mutation_key m <> check_key c /\
         encode_key (mutation_key m) <> encode_key (check_key c)).
Proof.
  apply (check_key_and_mutation_key "users" ["email"; "id"]
           [("id", VStr Users.U1); ("email", VStr "a@x.com")]
           OpSet 1000 Users.empty (CommitOk 1%N) Users.after_create).
  vm_compute. reflexivity.
Defined.

(** ** Point lookup by identifier *)

Lemma extend_id_field shape t f :
  In f (extend shape [("id", t)]) -> fst f = "id" -> snd f = t.
Proof.
  unfold extend. rewrite in_app_iff, filter_In. simpl.
  intros [[_ H] | [<- | []]] E; [| reflexivity].
  rewrite E in H. discriminate.
Qed.

(** The query [{ id }] with a well-formed identifier passes the validation
    of queries. *)
Lemma query_by_id_valid uuid schema id :
  uuid id = true ->
  z_object (schemaValidationPartialObjectWithId uuid schema)
    [("id", VStr id)] = true.
Proof.
  intros Hu. unfold z_object, schemaValidationPartialObjectWithId, partial.
  rewrite forallb_forall. intros f Hf.
  apply in_map_iff in Hf. destruct Hf as [g [<- Hg]]. cbn [fst snd].
  unfold get. cbn [own fst snd]. destruct (String.eqb "id" (fst g)) eqn:E.
  - apply String.eqb_eq in E. symmetry in E.
    rewrite (extend_id_field _ _ _ Hg E). exact Hu.
  - reflexivity.
Qed.

(** [findById(id)] is one batched read of the single key of [id], and
    returns what the store holds there. *)
Lemma findById_reads_id_key uuid schema name id w :
  uuid id = true ->
  findById uuid schema name (VStr id) w =
    (Return (kv_get (kv w) (physicalKey name "id" id)),
     record_call
       (CallGetMany
          [[VStr name; VStr (getKeysWithIndexes name "id"); VStr id]]) w).
Proof.
  intros Hu. unfold findById, findOne, parse, bind.
  rewrite (query_by_id_valid uuid schema id Hu). simpl.
  unfold db_getMany, ret. simpl.
  destruct (kv_get (kv w) (physicalKey name "id" id)) eqn:E;
    unfold physicalKey in E; rewrite E; reflexivity.
Qed.

(** C8.  For an identifier under which the store holds no record and a
    partial record that passes validation, [updateById] returns [null]; the
    store is as it was, and the only store call of the run is the read of the
    identifier's key. *)
Theorem updateById_of_unknown_id_changes_nothing :
  forall uuid deepMerge schema name primaryIndexes id data now w,
    z_object (schemaValidationPartialObject schema) data = true ->
    uuid id = true ->
    kv_get (kv w) (physicalKey name "id" id) = None ->
    exists w',
      updateById uuid deepMerge schema name primaryIndexes
        (VStr id) data now w = (Return None, w') /\
      kv w' = kv w /\
      calls w' =
        calls w ++
        [CallGetMany
           [[VStr name; VStr (getKeysWithIndexes name "id"); VStr id]]].
Proof.
  intros uuid deepMerge schema name primaryIndexes id data now w Hd Hu Hn.
  pose proof (findById_reads_id_key uuid schema name id w Hu) as Hf.
  unfold findById in Hf. rewrite Hn in Hf.
  eexists. unfold updateById, parse, bind at 1. rewrite Hd. simpl.
  unfold bind. rewrite Hf. simpl. unfold ret.
  split; [reflexivity | split; reflexivity].
Qed.

Lemma updateById_of_unknown_id_changes_nothing_witness :
  exists w',
    Users.updateById (VStr Users.U2) [("email", VStr "b@x.com")] 2000
      Users.after_create = (Return None, w') /\
    kv w' = kv Users.after_create /\
    calls w' =
      calls Users.after_create ++
      [CallGetMany [[VStr "users"; VStr "users_by_id"; VStr Users.U2]]].
Proof.
  apply (updateById_of_unknown_id_changes_nothing zod_uuid std_deepMerge
           Users.schema Users.name Users.primaryIndexes Users.U2
           [("email", VStr "b@x.com")] 2000 Users.after_create);
    vm_compute; reflexivity.
Defined.

(** ** A committed write can be read back *)

Lemma kv_commit_ok db op v db' :
  kv_commit db op = Some (CommitOk v, db') ->
  exists cs ms,
    encode_checks (checks op) = Some cs /\
    encode_mutations (mutations op) = Some ms /\
    forallb (check_holds db) cs = true /\
    v = N.succ (version db) /\
    db' = mkKv (apply_mutations v ms (entries db)) v.
Proof.
  unfold kv_commit.
  destruct (encode_checks (checks op)) as [cs |]; [| discriminate].
  destruct (encode_mutations (mutations op)) as [ms |]; [| discriminate].
  destruct (forallb (check_holds db) cs) eqn:E; [| discriminate].
  intros H. inversion H. exists cs, ms. repeat split. exact E.
Qed.

Lemma stageMutations_encode name d op : forall indexes ms,
  stageMutations name indexes d op = Some ms ->
  exists ks,
    encode_mutations ms = Some (map (fun k => (op, k, d)) ks) /\
    forall index s,
      In index indexes -> toString (get d index) = Some s ->
      In (physicalKey name index s) ks.
Proof.
  induction indexes as [| x indexes IH]; intros ms H; simpl in H.
  - inversion H. exists []. split; [reflexivity | intros ? ? []].
  - unfold mutationKey in H.
    destruct (toString (get d x)) as [sx |] eqn:Ex; [| discriminate].
    destruct (stageMutations name indexes d op) as [ms' |]; [| discriminate].
    destruct (IH ms' eq_refl) as [ks [Hk Hin]].
    inversion H. exists (physicalKey name x sx :: ks). split.
    + cbn - [getKeysWithIndexes]. rewrite Hk. reflexivity.
    + intros index s [<- | Hi] Hs.
      * left. congruence.
      * right. now apply Hin.
Qed.

Lemma lookup_apply_sets d v : forall ks l k,
  (lookup k l = Some (d, v) \/ In k ks) ->
  lookup k (apply_mutations v (map (fun k => (OpSet, k, d)) ks) l)
  = Some (d, v).
Proof.
  unfold apply_mutations.
  induction ks as [| k1 ks IH]; intros l k H; simpl.
  - destruct H as [H | []]. exact H.
  - apply IH. destruct (key_compare k k1) eqn:E.
    + apply key_compare_eq in E. subst k1. left. apply lookup_insert.
    + assert (N : k <> k1).
      { intros ->. rewrite key_compare_refl in E. discriminate. }
      destruct H as [H | [H | H]]; [left | congruence | now right].
      now rewrite lookup_insert_other.
    + assert (N : k <> k1).
      { intros ->. rewrite key_compare_refl in E. discriminate. }
      destruct H as [H | [H | H]]; [left | congruence | now right].
      now rewrite lookup_insert_other.
Qed.

(** After a committed [set] transaction, every projection key of the stamped
    record holds that record. *)
Lemma performTransaction_set_stores name indexes data now w v w' :
  performTransaction name indexes data OpSet now w
  = (Return (CommitOk v), w') ->
  forall index s,
    In index indexes ->
    toString (get (updateTimestamps data true now) index) = Some s ->
    kv_get (kv w') (physicalKey name index s)
    = Some (updateTimestamps data true now) /\
    kv_versionstamp (kv w') (physicalKey name index s) = Some v.
Proof.
  unfold performTransaction. cbn [is_set].
  set (d := updateTimestamps data true now).
  destruct (stageMutations name indexes d OpSet) as [ms |] eqn:Hs;
    [| discriminate].
  unfold db_commit.
  destruct (kv_commit (kv w) _) as [[r db'] |] eqn:Hc; [| discriminate].
  intros H. inversion H; subst r w'. clear H. cbn [kv].
  apply kv_commit_ok in Hc. destruct Hc as [cs [ms' [_ [Hm [_ [_ ->]]]]]].
  cbn [mutations] in Hm.
  destruct (stageMutations_encode _ _ _ _ _ Hs) as [ks [Hk Hin]].
  rewrite Hk in Hm. inversion Hm; subst ms'.
  intros index s Hi Ht. unfold kv_get, kv_versionstamp. cbn [entries].
  rewrite (lookup_apply_sets d v ks (entries (kv w))
             (physicalKey name index s)).
  - split; reflexivity.
  - right. now apply Hin.
Qed.

Lemma create_returns schema name primaryIndexes data id now w r w' :
  create schema name primaryIndexes data id now w = (Return r, w') ->
  z_object schema data = true /\
  performTransaction name (schemaPrimaryIndexes primaryIndexes)
    (spread [("id", VStr id)] data) OpSet now w = (Return r, w').
Proof.
  unfold create, parse, bind, schemaValidationObject.
  destruct (z_object schema data); simpl; [auto | discriminate].
Qed.

Lemma spread_fresh (base : record) : forall (extra : record),
  NoDup (map fst extra) ->
  (forall k, In k (map fst extra) -> own base k = None) ->
  spread base extra = base ++ extra.
Proof.
  unfold spread. intros extra. revert base.
  induction extra as [| [k v] extra IH]; intros base Hn Hf; simpl.
  - now rewrite app_nil_r.
  - inversion Hn as [| ? ? Hk Hn']; subst.
    rewrite set_field_fresh by (apply Hf; now left).
    rewrite IH; [now rewrite <- app_assoc | exact Hn' |].
    intros k' Hk'. rewrite own_app, Hf by now right.
    simpl. rewrite string_eqb_neq; [reflexivity |].
    intros ->. contradiction.
Qed.

(** The record [create] hands to the transaction, once stamped. *)
Lemma created_record data id now :
  NoDup (map fst data) ->
  own data "id" = None ->
  own data "createdAt" = None ->
  own data "updatedAt" = None ->
  updateTimestamps (spread [("id", VStr id)] data) true now
  = ("id", VStr id) :: data
    ++ [("createdAt", VNum now); ("updatedAt", VNum now)].
Proof.
  intros Hn Hi Hc Hu. unfold updateTimestamps.
  rewrite spread_fresh; [| exact Hn |].
  - rewrite (set_field_fresh _ "createdAt").
    + rewrite (set_field_fresh _ "updatedAt").
      * simpl. now rewrite <- app_assoc.
      * rewrite own_app. simpl. rewrite Hu. reflexivity.
    + simpl. exact Hc.
  - intros k Hk. cbn [own]. destruct (String.eqb "id" k) eqn:E;
      [| reflexivity].
    apply String.eqb_eq in E. subst k. exfalso.
    clear - Hi Hk. induction data as [| [k v] data IH]; simpl in *;
      [contradiction |].
    destruct (String.eqb k "id") eqn:E; [discriminate |].
    destruct Hk as [-> | Hk]; [now rewrite String.eqb_refl in E | auto].
Qed.

(** C4, as the code has it.  For a record [data] that passes validation and
    has no field named [id], [createdAt] or [updatedAt], a [create] that
    commits followed by [findById] of the assigned identifier returns a
    record with the fields of [data] and the three system fields: [id] is
    the assigned identifier, [createdAt] and [updatedAt] are both the time
    of the creation, and every other field is as in [data]. *)
Theorem create_then_findById_returns_data_and_system_fields :
  forall uuid schema name primaryIndexes data id now w v w',
    NoDup (map fst data) ->
    own data "id" = None ->
    own data "createdAt" = None ->
    own data "updatedAt" = None ->
    uuid id = true ->
    create schema name primaryIndexes data id now w
    = (Return (CommitOk v), w') ->
    z_object schema data = true /\
    exists found w'',
      findById uuid schema name (VStr id) w' = (Return (Some found), w'') /\
      kv w'' = kv w' /\
      own found "id" = Some (VStr id) /\
      own found "createdAt" = Some (VNum now) /\
      own found "updatedAt" = Some (VNum now) /\
      (forall k, k <> "id" -> k <> "createdAt" -> k <> "updatedAt" ->
                 own found k = own data k).
Proof.
  intros uuid schema name primaryIndexes data id now w v w'
         Hn Hi Hc Hu Hid H.
  apply create_returns in H. destruct H as [Hv H]. split; [exact Hv |].
  pose proof (performTransaction_set_stores _ _ _ _ _ _ _ H "id" id
                (id_in_schemaPrimaryIndexes primaryIndexes)) as Hs.
  rewrite (created_record data id now Hn Hi Hc Hu) in Hs.
  destruct (Hs eq_refl) as [Hg _]. clear Hs.
  eexists. eexists. rewrite (findById_reads_id_key uuid schema name id w' Hid).
  rewrite Hg. split; [reflexivity |]. split; [reflexivity |].
  assert (E1 : String.eqb "id" "createdAt" = false) by reflexivity.
  assert (E2 : String.eqb "id" "updatedAt" = false) by reflexivity.
  cbn [own]. rewrite String.eqb_refl, E1, E2, !own_app, Hc, Hu.
  split; [reflexivity |]. split; [reflexivity |]. split; [reflexivity |].
  intros k Ki Kc Ku.
  rewrite (string_eqb_neq "id" k) by congruence. rewrite own_app.
  destruct (own data k); [reflexivity |]. cbn [own].
  rewrite (string_eqb_neq "createdAt" k) by congruence.
  rewrite (string_eqb_neq "updatedAt" k) by congruence.
  reflexivity.
Qed.

Lemma create_then_findById_returns_data_and_system_fields_witness :
  z_object Users.schema [("email", VStr "a@x.com")] = true /\
  exists found w'',
    Users.findById (VStr Users.U1) Users.after_create
    = (Return (Some found), w'') /\
    kv w'' = kv Users.after_create /\
    own found "id" = Some (VStr Users.U1) /\
    own found "createdAt" = Some (VNum 1000) /\
    own found "updatedAt" = Some (VNum 1000) /\
    (forall k, k <> "id" -> k <> "createdAt" -> k <> "updatedAt" ->
               own found k = own [("email", VStr "a@x.com")] k).
Proof.
  apply (create_then_findById_returns_data_and_system_fields zod_uuid
           Users.schema Users.name Users.primaryIndexes
           [("email", VStr "a@x.com")] Users.U1 1000
           Users.empty 1%N Users.after_create).
  - repeat constructor. intros [].
  - reflexivity.
  - reflexivity.
  - reflexivity.
  - vm_compute. reflexivity.
  - vm_compute. reflexivity.
Defined.

(** C4, as stated, fails for a record that passes validation and carries an
    [id] of its own (validation lets fields the schema does not declare
    pass): [create] commits, the record is stored under its own [id], and
    [findById] of the assigned identifier returns [null]. *)
Lemma create_then_findById_of_the_assigned_id_finds_nothing :
  let data := [("email", VStr "c@x.com"); ("id", VStr "mine")] in
  let run := Users.create data Users.U2 2000 Users.empty in
  z_object Users.schema data = true /\
  fst run = Return (CommitOk 1%N) /\
  fst (Users.findById (VStr Users.U2) (snd run)) = Return None.
Proof.
  vm_compute. repeat split.
Qed.

(** ** Uniqueness of primary index values *)

Lemma usable_toString v : usable v = true -> exists s, toString v = Some s.
Proof. destruct v; simpl; try discriminate; eauto. Qed.

Lemma stageMutations_usable name d op : forall indexes,
  Forall (fun index => usable (get d index) = true) indexes ->
  exists ms, stageMutations name indexes d op = Some ms.
Proof.
  induction indexes as [| x indexes IH]; intros H; simpl; [eauto |].
  inversion H as [| ? ? Hx Hr]; subst.
  destruct (usable_toString _ Hx) as [s Hs].
  destruct (IH Hr) as [ms Hms].
  unfold mutationKey. rewrite Hs, Hms. eauto.
Qed.

Lemma encode_checks_usable name d : forall indexes,
  Forall (fun index => usable (get d index) = true) indexes ->
  exists cs,
    encode_checks (stageChecks name indexes d) = Some cs /\
    forall index s,
      In index indexes -> get d index = VStr s ->
      In (physicalKey name index s, None) cs.
Proof.
  induction indexes as [| x indexes IH]; intros H.
  - exists []. split; [reflexivity | intros ? ? []].
  - inversion H as [| ? ? Hx Hr]; subst.
    destruct (IH Hr) as [cs [Hcs Hin]].
    unfold usable in Hx.
    destruct (encode_part (get d x)) as [p |] eqn:Ep; [| discriminate].
    exists (([KString name; KString (getKeysWithIndexes name x); p], None)
            :: cs).
    split.
    + unfold stageChecks in *. cbn [map encode_checks check_key checkKey
        encode_key encode_part check_versionstamp].
      rewrite Ep, Hcs. reflexivity.
    + intros index s [<- | Hi] Hs.
      * left. rewrite Hs in Ep. inversion Ep. reflexivity.
      * right. now apply Hin.
Qed.

Lemma forallb_refuted {A} (f : A -> bool) (l : list A) (x : A) :
  In x l -> f x = false -> forallb f l = false.
Proof.
  intros Hi Hx. destruct (forallb f l) eqn:E; [| reflexivity].
  rewrite forallb_forall in E. rewrite (E x Hi) in Hx. discriminate.
Qed.

(** A transaction with a check on a key that the store holds is refused, and
    the store stays as it was. *)
Lemma performTransaction_refused name indexes data op now w F s v :
  let d := updateTimestamps data (is_set op) now in
  Forall (fun index => usable (get d index) = true) indexes ->
  In F indexes ->
  get d F = VStr s ->
  kv_versionstamp (kv w) (physicalKey name F s) = Some v ->
  exists w',
    performTransaction name indexes data op now w
    = (Return CommitFailed, w') /\
    kv w' = kv w.
Proof.
  intros d Hu HF Hs Hv. unfold performTransaction. fold d.
  destruct (stageMutations_usable name d op indexes Hu) as [ms Hms].
  destruct (encode_checks_usable name d indexes Hu) as [cs [Hcs Hin]].
  destruct (stageMutations_encode _ _ _ _ _ Hms) as [ks [Hk _]].
  rewrite Hms. unfold db_commit, kv_commit. cbn [checks mutations].
  rewrite Hcs, Hk.
  rewrite (forallb_refuted _ cs (physicalKey name F s, None)).
  - eexists. split; reflexivity.
  - now apply Hin.
  - unfold check_holds. cbn [fst snd]. rewrite Hv. reflexivity.
Qed.

Lemma encode_checks_free name d db : forall indexes,
  Forall (fun index => usable (get d index) = true) indexes ->
  (forall index p,
      In index indexes -> encode_part (get d index) = Some p ->
      kv_versionstamp db
        [KString name; KString (getKeysWithIndexes name index); p] = None) ->
  exists cs,
    encode_checks (stageChecks name indexes d) = Some cs /\
    forallb (check_holds db) cs = true.
Proof.
  induction indexes as [| x indexes IH]; intros Hu Hf.
  - exists []. split; reflexivity.
  - inversion Hu as [| ? ? Hx Hr]; subst.
    destruct IH as [cs [Hcs Hall]]; [exact Hr | |].
    { intros index p Hi. apply Hf. now right. }
    unfold usable in Hx.
    destruct (encode_part (get d x)) as [p |] eqn:Ep; [| discriminate].
    exists (([KString name; KString (getKeysWithIndexes name x); p], None)
            :: cs).
    split.
    + unfold stageChecks in *. cbn [map encode_checks check_key checkKey
        encode_key encode_part check_versionstamp].
      rewrite Ep, Hcs. reflexivity.
    + cbn [forallb]. rewrite Hall, andb_true_r.
      unfold check_holds. cbn [fst snd].
      rewrite (Hf x p (or_introl eq_refl) Ep). reflexivity.
Qed.

(** [create] commits when the record passes validation, its primary index
    values can be used in keys, and none of the keys it checks is taken. *)
Lemma create_commits_on_free_keys schema name primaryIndexes data id now w :
  z_object schema data = true ->
  Forall (fun index => usable (get (newRecord id data now) index) = true)
         (schemaPrimaryIndexes primaryIndexes) ->
  (forall index p,
      In index (schemaPrimaryIndexes primaryIndexes) ->
      encode_part (get (newRecord id data now) index) = Some p ->
      kv_versionstamp (kv w)
        [KString name; KString (getKeysWithIndexes name index); p] = None) ->
  exists w',
    create schema name primaryIndexes data id now w
    = (Return (CommitOk (N.succ (version (kv w)))), w').
Proof.
  intros Hv Hu Hf.
  destruct (stageMutations_usable name (newRecord id data now) OpSet _ Hu)
    as [ms Hms].
  destruct (encode_checks_free name (newRecord id data now) (kv w) _ Hu Hf)
    as [cs [Hcs Hall]].
  destruct (stageMutations_encode _ _ _ _ _ Hms) as [ks [Hk _]].
  unfold create, parse, bind, schemaValidationObject. rewrite Hv. simpl.
  unfold performTransaction. cbn [is_set].
  unfold newRecord in Hms, Hcs. rewrite Hms.
  unfold db_commit, kv_commit. cbn [checks mutations].
  rewrite Hcs, Hk, Hall. eexists. reflexivity.
Qed.

(** When [create] has committed a record whose
    primary index field [F] holds the string [s], a later [create] of a
    record with the same string in [F] (a record that passes validation and
    whose primary index values the store accepts in keys) is refused: its
    commit returns [{ ok: false }] and the store is as the first [create]
    left it.  Of the two commits exactly one succeeded. *)
Theorem create_of_a_taken_value_is_refused :
  forall schema name primaryIndexes F s d1 id1 now1 d2 id2 now2 w v1 w1,
    In F (schemaPrimaryIndexes primaryIndexes) ->
    get (newRecord id1 d1 now1) F = VStr s ->
    get (newRecord id2 d2 now2) F = VStr s ->
    create schema name primaryIndexes d1 id1 now1 w
    = (Return (CommitOk v1), w1) ->
    z_object schema d2 = true ->
    Forall (fun index => usable (get (newRecord id2 d2 now2) index) = true)
           (schemaPrimaryIndexes primaryIndexes) ->
    exists w2,
      create schema name primaryIndexes d2 id2 now2 w1
      = (Return CommitFailed, w2) /\
      kv w2 = kv w1 /\
      exactly_one_succeeds
        (fst (create schema name primaryIndexes d1 id1 now1 w))
        (fst (create schema name primaryIndexes d2 id2 now2 w1)) = true.
Proof.
  intros schema name primaryIndexes F s d1 id1 now1 d2 id2 now2 w v1 w1
         HF H1 H2 Hc Hv Hu.
  pose proof Hc as Hc'. apply create_returns in Hc'. destruct Hc' as [_ Hp].
  assert (Hs : toString (get (newRecord id1 d1 now1) F) = Some s)
    by now rewrite H1.
  destruct (performTransaction_set_stores _ _ _ _ _ _ _ Hp F s HF Hs)
    as [_ Hvs].
  destruct (performTransaction_refused name
              (schemaPrimaryIndexes primaryIndexes)
              (spread [("id", VStr id2)] d2) OpSet now2 w1 F s v1
              Hu HF H2 Hvs) as [w2 [Hr Hk]].
  assert (Hc2 : create schema name primaryIndexes d2 id2 now2 w1
                = (Return CommitFailed, w2)).
  { unfold create, parse, bind, schemaValidationObject.
    rewrite Hv. simpl. exact Hr. }
  exists w2. rewrite Hc, Hc2. repeat split; assumption.
Qed.

Lemma create_of_a_taken_value_is_refused_witness :
  exists w2,
    Users.create [("email", VStr "a@x.com")] Users.U2 1001 Users.after_create
    = (Return CommitFailed, w2) /\
    kv w2 = kv Users.after_create /\
    exactly_one_succeeds
      (fst (Users.create [("email", VStr "a@x.com")] Users.U1 1000
              Users.empty))
      (fst (Users.create [("email", VStr "a@x.com")] Users.U2 1001
              Users.after_create)) = true.
Proof.
  apply (create_of_a_taken_value_is_refused Users.schema Users.name
           Users.primaryIndexes "email" "a@x.com"
           [("email", VStr "a@x.com")] Users.U1 1000
           [("email", VStr "a@x.com")] Users.U2 1001
           Users.empty 1%N Users.after_create).
  - vm_compute. tauto.
  - reflexivity.
  - reflexivity.
  - vm_compute. reflexivity.
  - reflexivity.
  - vm_compute. repeat constructor.
Defined.

(** One order of the two calls: the first commits, the second is refused. *)
Lemma first_create_commits_second_is_refused
  schema name primaryIndexes F s d1 id1 now1 d2 id2 now2 w :
  In F (schemaPrimaryIndexes primaryIndexes) ->
  get (newRecord id1 d1 now1) F = VStr s ->
  get (newRecord id2 d2 now2) F = VStr s ->
  z_object schema d1 = true ->
  z_object schema d2 = true ->
  usable_indexes (schemaPrimaryIndexes primaryIndexes)
    (newRecord id1 d1 now1) ->
  usable_indexes (schemaPrimaryIndexes primaryIndexes)
    (newRecord id2 d2 now2) ->
  free_keys name (schemaPrimaryIndexes primaryIndexes)
    (newRecord id1 d1 now1) (kv w) ->
  exists v1 w1 w2,
    create schema name primaryIndexes d1 id1 now1 w
    = (Return (CommitOk v1), w1) /\
    create schema name primaryIndexes d2 id2 now2 w1
    = (Return CommitFailed, w2) /\
    kv w2 = kv w1 /\
    exactly_one_succeeds
      (fst (create schema name primaryIndexes d1 id1 now1 w))
      (fst (create schema name primaryIndexes d2 id2 now2 w1)) = true.
Proof.
  intros HF H1 H2 V1 V2 U1 U2 Hfree.
  destruct (create_commits_on_free_keys schema name primaryIndexes
              d1 id1 now1 w V1 U1 Hfree) as [w1 Hc1].
  destruct (create_of_a_taken_value_is_refused schema name primaryIndexes
              F s d1 id1 now1 d2 id2 now2 w _ w1 HF H1 H2 Hc1 V2 U2)
    as [w2 [Hc2 [Hk He]]].
  exists (N.succ (version (kv w))), w1, w2.
  repeat split; assumption.
Qed.

(** C1.  When two [create] calls supply records with the same string in a
    declared primary index field (records that pass validation, with primary
    index values the store accepts in keys), on a store in which the keys of
    neither record are taken, then whichever of the two commits first
    succeeds and the other is refused with [{ ok: false }], the store staying
    as the first left it: exactly one of the two commits succeeds.  The
    refusal comes from the not-exists check staged on the projection key of
    the shared value. *)
Theorem two_creates_of_one_value_exactly_one_commits :
  forall schema name primaryIndexes F s d1 id1 now1 d2 id2 now2 w,
    In F (schemaPrimaryIndexes primaryIndexes) ->
    get (newRecord id1 d1 now1) F = VStr s ->
    get (newRecord id2 d2 now2) F = VStr s ->
    z_object schema d1 = true ->
    z_object schema d2 = true ->
    usable_indexes (schemaPrimaryIndexes primaryIndexes)
      (newRecord id1 d1 now1) ->
    usable_indexes (schemaPrimaryIndexes primaryIndexes)
      (newRecord id2 d2 now2) ->
    free_keys name (schemaPrimaryIndexes primaryIndexes)
      (newRecord id1 d1 now1) (kv w) ->
    free_keys name (schemaPrimaryIndexes primaryIndexes)
      (newRecord id2 d2 now2) (kv w) ->
    (exists v1 w1 w2,
        create schema name primaryIndexes d1 id1 now1 w
        = (Return (CommitOk v1), w1) /\
        create schema name primaryIndexes d2 id2 now2 w1
        = (Return CommitFailed, w2) /\
        kv w2 = kv w1 /\
        exactly_one_succeeds
          (fst (create schema name primaryIndexes d1 id1 now1 w))
          (fst (create schema name primaryIndexes d2 id2 now2 w1)) = true) /\
    (exists v2 w1 w2,
        create schema name primaryIndexes d2 id2 now2 w
        = (Return (CommitOk v2), w1) /\
        create schema name primaryIndexes d1 id1 now1 w1
        = (Return CommitFailed, w2) /\
        kv w2 = kv w1 /\
        exactly_one_succeeds
          (fst (create schema name primaryIndexes d2 id2 now2 w))
          (fst (create schema name primaryIndexes d1 id1 now1 w1)) = true).
Proof.
  intros schema name primaryIndexes F s d1 id1 now1 d2 id2 now2 w
         HF H1 H2 V1 V2 U1 U2 F1 F2.
  split.
  - now apply (first_create_commits_second_is_refused schema name
                 primaryIndexes F s d1 id1 now1 d2 id2 now2 w).
  - now apply (first_create_commits_second_is_refused schema name
                 primaryIndexes F s d2 id2 now2 d1 id1 now1 w).
Qed.

Lemma two_creates_of_one_value_exactly_one_commits_witness :
  let d := [("email", VStr "a@x.com")] in
  (exists v1 w1 w2,
      Users.create d Users.U1 1000 Users.empty = (Return (CommitOk v1), w1) /\
      Users.create d Users.U2 1001 w1 = (Return CommitFailed, w2) /\
      kv w2 = kv w1 /\
      exactly_one_succeeds
        (fst (Users.create d Users.U1 1000 Users.empty))
        (fst (Users.create d Users.U2 1001 w1)) = true) /\
  (exists v2 w1 w2,
      Users.create d Users.U2 1001 Users.empty = (Return (CommitOk v2), w1) /\
      Users.create d Users.U1 1000 w1 = (Return CommitFailed, w2) /\
      kv w2 = kv w1 /\
      exactly_one_succeeds
        (fst (Users.create d Users.U2 1001 Users.empty))
        (fst (Users.create d Users.U1 1000 w1)) = true).
Proof.
  apply (two_creates_of_one_value_exactly_one_commits Users.schema
           Users.name Users.primaryIndexes "email" "a@x.com"
           [("email", VStr "a@x.com")] Users.U1 1000
           [("email", VStr "a@x.com")] Users.U2 1001 Users.empty).
  - vm_compute. tauto.
  - reflexivity.
  - reflexivity.
  - reflexivity.
  - reflexivity.
  - vm_compute. repeat constructor.
  - vm_compute. repeat constructor.
  - intros index p _ _. reflexivity.
  - intros index p _ _. reflexivity.
Defined.

(** ** The predicate scan *)

Lemma strict_eq_refl v : is_reference v = false -> strict_eq v v = true.
Proof.
  destruct v; simpl; try discriminate; intros _.
  - reflexivity.
  - reflexivity.
  - apply Bool.eqb_reflx.
  - apply Z.eqb_refl.
  - apply String.eqb_refl.
Qed.

Lemma same_value_zero_refl k : same_value_zero k k = true.
Proof.
  unfold same_value_zero. destruct (is_reference (snd k)) eqn:E; simpl.
  - apply Nat.eqb_refl.
  - now apply strict_eq_refl.
Qed.

Lemma map_has_added seen k : map_has (seen ++ [k]) k = true.
Proof.
  unfold map_has. rewrite existsb_app. simpl.
  rewrite same_value_zero_refl. now rewrite orb_true_r.
Qed.

(** Once the identifier is in the map, the entry adds nothing. *)
Lemma find_entry_seen i entry : forall query st,
  map_has (snd st) (i, get entry "id") = true ->
  find_entry query i entry st = st.
Proof.
  unfold find_entry.
  induction query as [| kv query IH]; intros st H; simpl; [reflexivity |].
  destruct (strict_eq (get entry (fst kv)) (snd kv)).
  - rewrite H. simpl. now apply IH.
  - now apply IH.
Qed.

Lemma find_entry_spec i entry : forall query acc seen,
  find_entry query i entry (acc, seen) =
    if matches_any query entry && negb (map_has seen (i, get entry "id"))
    then (acc ++ [entry], seen ++ [(i, get entry "id")])
    else (acc, seen).
Proof.
  induction query as [| kv query IH]; intros acc seen; [reflexivity |].
  destruct (map_has seen (i, get entry "id")) eqn:Hs.
  - rewrite find_entry_seen by exact Hs. now rewrite andb_false_r.
  - unfold find_entry in *. cbn [fold_left matches_any existsb fst snd].
    destruct (strict_eq (get entry (fst kv)) (snd kv)) eqn:Hm.
    + rewrite Hs. cbn [negb orb andb].
      apply (find_entry_seen i entry query
               (acc ++ [entry], seen ++ [(i, get entry "id")])).
      apply map_has_added.
    + rewrite IH. unfold matches_any. rewrite Hs. reflexivity.
Qed.

Lemma find_loop_spec query : forall scan i acc seen,
  fst (find_loop query i scan (acc, seen)) =
    acc ++ dedup_by_id seen
             (filter (fun ie => matches_any query (snd ie))
                     (number i (map snd scan))).
Proof.
  induction scan as [| e scan IH]; intros i acc seen; simpl.
  - now rewrite app_nil_r.
  - rewrite find_entry_spec.
    destruct (matches_any query (snd e)); simpl.
    + destruct (map_has seen (i, get (snd e) "id")); simpl.
      * apply IH.
      * rewrite IH, <- app_assoc. reflexivity.
    + apply IH.
Qed.

Lemma dedup_by_id_incl : forall l seen r,
  In r (dedup_by_id seen l) -> In r (map snd l).
Proof.
  induction l as [| [i e] l IH]; intros seen r; simpl; [tauto |].
  destruct (map_has seen (i, get e "id")); simpl.
  - intros H. right. now apply (IH seen).
  - intros [H | H]; [now left | right; now apply (IH _ _ H)].
Qed.

Lemma number_snd : forall scan i, map snd (number i scan) = scan.
Proof.
  induction scan as [| e scan IH]; intros i; simpl; [reflexivity |].
  now rewrite IH.
Qed.

(** What [matching_once] returns was scanned and matches the query. *)
Lemma matching_once_sound query scan r :
  In r (matching_once query scan) ->
  In r scan /\ matches_any query r = true.
Proof.
  unfold matching_once. intros H. apply dedup_by_id_incl in H.
  apply in_map_iff in H. destruct H as [[i e] [<- H]].
  apply filter_In in H. destruct H as [H Hm]. split; [| exact Hm].
  rewrite <- (number_snd scan 0). apply in_map_iff. now exists (i, e).
Qed.

Lemma strict_eq_sym a b : strict_eq a b = strict_eq b a.
Proof.
  destruct a, b; simpl; try reflexivity.
  - destruct b, b0; reflexivity.
  - apply Z.eqb_sym.
  - apply String.eqb_sym.
Qed.

Lemma same_value_zero_primitive i j a b :
  is_reference a = false ->
  same_value_zero (i, a) (j, b) = strict_eq a b.
Proof. unfold same_value_zero. simpl. now intros ->. Qed.

Lemma number_In : forall scan i e,
  In e scan -> exists j, In (j, e) (number i scan).
Proof.
  induction scan as [| x scan IH]; intros i e; simpl; [tauto |].
  intros [-> | H].
  - exists i. now left.
  - destruct (IH (S i) e H) as [j Hj]. exists j. now right.
Qed.

(** Every entry with a primitive identifier is either already in the map or
    represented in the result by a record of the same identifier. *)
Lemma dedup_by_id_complete : forall l seen i e,
  In (i, e) l ->
  is_reference (get e "id") = false ->
  map_has seen (i, get e "id") = true \/
  exists r, In r (dedup_by_id seen l) /\
            strict_eq (get r "id") (get e "id") = true.
Proof.
  induction l as [| [j e'] l IH]; intros seen i e Hin Hp; [destruct Hin |].
  cbn [dedup_by_id].
  destruct Hin as [Heq | Hin].
  - inversion Heq; subst j e'.
    destruct (map_has seen (i, get e "id")); [now left | right].
    exists e. split; [now left | now apply strict_eq_refl].
  - destruct (map_has seen (j, get e' "id")) eqn:Hs.
    + apply (IH seen i e Hin Hp).
    + destruct (IH (seen ++ [(j, get e' "id")]) i e Hin Hp) as [H | [r [H1 H2]]].
      * unfold map_has in H. rewrite existsb_app in H.
        apply orb_true_iff in H. destruct H as [H | H]; [now left |].
        simpl in H. rewrite orb_false_r in H.
        rewrite same_value_zero_primitive in H by exact Hp.
        right. exists e'. split; [now left |].
        now rewrite strict_eq_sym.
      * right. exists r. split; [now right | exact H2].
Qed.

(** A record of the result with a primitive identifier has an identifier
    that was not in the map. *)
Lemma dedup_by_id_fresh : forall l seen r k,
  In r (dedup_by_id seen l) ->
  is_reference (get r "id") = false ->
  In k seen ->
  strict_eq (get r "id") (snd k) = false.
Proof.
  induction l as [| [j e'] l IH]; intros seen r k Hin Hp Hk; [destruct Hin |].
  cbn [dedup_by_id] in Hin.
  destruct (map_has seen (j, get e' "id")) eqn:Hs.
  - apply (IH seen r k Hin Hp Hk).
  - destruct Hin as [<- | Hin].
    + unfold map_has in Hs.
      destruct (strict_eq (get e' "id") (snd k)) eqn:E; [| reflexivity].
      assert (existsb (same_value_zero (j, get e' "id")) seen = true).
      { apply existsb_exists. exists k. split; [exact Hk |].
        destruct k as [jk vk].
        now rewrite same_value_zero_primitive. }
      congruence.
    + apply (IH (seen ++ [(j, get e' "id")]) r k Hin Hp).
      apply in_or_app. now left.
Qed.

(** No two records of the result share a primitive identifier. *)
Lemma dedup_by_id_distinct : forall l seen,
  ForallOrdPairs
    (fun a b => is_reference (get b "id") = false ->
                strict_eq (get b "id") (get a "id") = false)
    (dedup_by_id seen l).
Proof.
  induction l as [| [j e'] l IH]; intros seen; cbn [dedup_by_id];
    [constructor |].
  destruct (map_has seen (j, get e' "id")); [apply IH |].
  constructor; [| apply IH].
  apply Forall_forall. intros b Hb Hp.
  apply (dedup_by_id_fresh l (seen ++ [(j, get e' "id")]) b
           (j, get e' "id") Hb Hp).
  apply in_or_app. right. now left.
Qed.

(** C6.  For a query that is not empty (and passes validation), [find]
    makes one store call, the scan of the prefix [[name]], and returns the
    scanned records of which at least one queried field matches (an OR over
    the queried fields), each identifier once, at its first occurrence, in
    the order of the scan: every returned record was scanned and matches;
    every scanned record that matches has its identifier in the result; and
    no two returned records share an identifier. *)
Theorem find_returns_each_match_once_in_scan_order :
  forall uuid schema name query w,
    query <> [] ->
    z_object (schemaValidationPartialObjectWithId uuid schema) query = true ->
    let scan := map snd (kv_list (kv w) [KString name]) in
    find uuid schema name query w =
      (Return (Some (matching_once query scan)),
       record_call (CallList [VStr name]) w) /\
    (forall r, In r (matching_once query scan) ->
               In r scan /\ matches_any query r = true) /\
    (forall e, In e scan -> matches_any query e = true ->
               is_reference (get e "id") = false ->
               exists r, In r (matching_once query scan) /\
                         strict_eq (get r "id") (get e "id") = true) /\
    ForallOrdPairs
      (fun a b => is_reference (get b "id") = false ->
                  strict_eq (get b "id") (get a "id") = false)
      (matching_once query scan).
Proof.
  intros uuid schema name query w Hq Hv scan. repeat split.
  - unfold find, parse, bind at 1. rewrite Hv. simpl.
    destruct query as [| kv query]; [congruence |]. cbn [is_empty_object].
    unfold bind, db_list, ret. cbn [encode_key encode_part].
    rewrite find_loop_spec. reflexivity.
  - now apply (matching_once_sound query scan r).
  - now apply (matching_once_sound query scan r).
  - intros e He Hm Hp. destruct (number_In scan 0 e He) as [j Hj].
    destruct (dedup_by_id_complete
                (filter (fun ie => matches_any query (snd ie))
                        (number 0 scan)) [] j e) as [H | H].
    + apply filter_In. split; [exact Hj | exact Hm].
    + exact Hp.
    + discriminate.
    + exact H.
  - apply dedup_by_id_distinct.
Qed.

Lemma find_returns_each_match_once_in_scan_order_witness :
  Users.find [("email", VStr "a@x.com")] Users.after_create =
    (Return
       (Some
          [[("id", VStr Users.U1); ("email", VStr "a@x.com");
            ("createdAt", VNum 1000); ("updatedAt", VNum 1000)]]),
     record_call (CallList [VStr "users"]) Users.after_create) /\
  List.length (kv_list (kv Users.after_create) [KString "users"]) = 2%nat.
Proof.
  split; [| reflexivity].
  apply (find_returns_each_match_once_in_scan_order zod_uuid Users.schema
           Users.name [("email", VStr "a@x.com")] Users.after_create).
  - discriminate.
  - reflexivity.
Defined.

(** ** Writes on a record that exists *)

Lemma get_updateTimestamps_other data isInsertion now k :
  k <> "createdAt" -> k <> "updatedAt" ->
  get (updateTimestamps data isInsertion now) k = get data k.
Proof.
  intros Hc Hu. unfold updateTimestamps.
  rewrite get_set_field_other by exact Hu.
  destruct isInsertion; [| reflexivity].
  now rewrite get_set_field_other.
Qed.

Lemma get_updateTimestamps_updatedAt data isInsertion now :
  get (updateTimestamps data isInsertion now) "updatedAt" = VNum now.
Proof. unfold updateTimestamps. apply get_set_field. Qed.

(** With [isInsertion] the creation time is stamped too. *)
Lemma get_updateTimestamps_createdAt data now :
  get (updateTimestamps data true now) "createdAt" = VNum now.
Proof.
  unfold updateTimestamps.
  rewrite get_set_field_other by discriminate. apply get_set_field.
Qed.

Lemma kv_get_versionstamp db k item :
  kv_get db k = Some item -> exists v, kv_versionstamp db k = Some v.
Proof.
  unfold kv_get, kv_versionstamp.
  destruct (lookup k (entries db)) as [[r v] |]; [| discriminate].
  intros _. now exists v.
Qed.

(** C3, on the code.  [updateById] of a record that exists never commits:
    the record found under the identifier carries that identifier, the
    transaction checks that the identifier's key does not exist, and the
    commit is refused.  The call returns [{ ok: false }], the store is as it
    was, and [findById] still returns the record as it was before. *)
Theorem updateById_of_existing_record_is_refused :
  forall uuid deepMerge schema name primaryIndexes id data now w item,
    uuid id = true ->
    z_object (schemaValidationPartialObject schema) data = true ->
    kv_get (kv w) (physicalKey name "id" id) = Some item ->
    get (deepMerge item data) "id" = VStr id ->
    Forall
      (fun index =>
         usable (get (updateTimestamps (deepMerge item data) true now) index)
         = true)
      (schemaPrimaryIndexes primaryIndexes) ->
    exists w',
      updateById uuid deepMerge schema name primaryIndexes
        (VStr id) data now w = (Return (Some CommitFailed), w') /\
      kv w' = kv w /\
      fst (findById uuid schema name (VStr id) w') = Return (Some item).
Proof.
  intros uuid deepMerge schema name primaryIndexes id data now w item
         Hu Hd Hg Hid Hus.
  pose proof (findById_reads_id_key uuid schema name id w Hu) as Hf.
  unfold findById in Hf. rewrite Hg in Hf.
  set (w1 := record_call
               (CallGetMany
                  [[VStr name; VStr (getKeysWithIndexes name "id");
                    VStr id]]) w) in *.
  destruct (kv_get_versionstamp _ _ _ Hg) as [v Hv].
  destruct (performTransaction_refused name
              (schemaPrimaryIndexes primaryIndexes) (deepMerge item data)
              OpSet now w1 "id" id v Hus
              (id_in_schemaPrimaryIndexes primaryIndexes))
    as [w' [Hr Hk]].
  - cbn [is_set]. rewrite get_updateTimestamps_other by discriminate.
    exact Hid.
  - exact Hv.
  - exists w'. split; [| split].
    + unfold updateById, parse, bind at 1. rewrite Hd. simpl.
      unfold bind at 1. rewrite Hf. unfold bind. rewrite Hr. reflexivity.
    + rewrite Hk. reflexivity.
    + rewrite (findById_reads_id_key uuid schema name id w' Hu).
      cbn [fst]. rewrite Hk. unfold w1. cbn [kv record_call].
      now rewrite Hg.
Qed.

Lemma updateById_of_existing_record_is_refused_witness :
  exists w',
    Users.updateById (VStr Users.U1) [("email", VStr "b@x.com")] 2000
      Users.after_create = (Return (Some CommitFailed), w') /\
    kv w' = kv Users.after_create /\
    fst (Users.findById (VStr Users.U1) w') =
      Return (Some [("id", VStr Users.U1); ("email", VStr "a@x.com");
                    ("createdAt", VNum 1000); ("updatedAt", VNum 1000)]).
Proof.
  apply (updateById_of_existing_record_is_refused zod_uuid std_deepMerge
           Users.schema Users.name Users.primaryIndexes Users.U1
           [("email", VStr "b@x.com")] 2000 Users.after_create).
  - vm_compute. reflexivity.
  - reflexivity.
  - vm_compute. reflexivity.
  - vm_compute. reflexivity.
  - vm_compute. repeat constructor.
Defined.

(** C2, on the code.  [deleteById] of a record that exists never commits,
    for the same reason: the delete transaction checks that the keys it is
    about to delete do not exist.  The call returns [{ ok: false }], the
    store is as it was, and [findById] still returns the record. *)
Theorem deleteById_of_existing_record_is_refused :
  forall uuid schema name primaryIndexes id now w item,
    uuid id = true ->
    kv_get (kv w) (physicalKey name "id" id) = Some item ->
    get item "id" = VStr id ->
    Forall
      (fun index =>
         usable (get (updateTimestamps item false now) index) = true)
      (schemaPrimaryIndexes primaryIndexes) ->
    exists w',
      deleteById uuid schema name primaryIndexes (VStr id) now w
      = (Return (Some CommitFailed), w') /\
      kv w' = kv w /\
      fst (findById uuid schema name (VStr id) w') = Return (Some item).
Proof.
  intros uuid schema name primaryIndexes id now w item Hu Hg Hid Hus.
  pose proof (findById_reads_id_key uuid schema name id w Hu) as Hf.
  unfold findById in Hf. rewrite Hg in Hf.
  set (w1 := record_call
               (CallGetMany
                  [[VStr name; VStr (getKeysWithIndexes name "id");
                    VStr id]]) w) in *.
  destruct (kv_get_versionstamp _ _ _ Hg) as [v Hv].
  destruct (performTransaction_refused name
              (schemaPrimaryIndexes primaryIndexes) item
              OpDelete now w1 "id" id v Hus
              (id_in_schemaPrimaryIndexes primaryIndexes))
    as [w' [Hr Hk]].
  - cbn [is_set]. rewrite get_updateTimestamps_other by discriminate.
    exact Hid.
  - exact Hv.
  - exists w'. split; [| split].
    + unfold deleteById, bind at 1. rewrite Hf. unfold bind. rewrite Hr.
      reflexivity.
    + rewrite Hk. reflexivity.
    + rewrite (findById_reads_id_key uuid schema name id w' Hu).
      cbn [fst]. rewrite Hk. unfold w1. cbn [kv record_call].
      now rewrite Hg.
Qed.

Lemma deleteById_of_existing_record_is_refused_witness :
  exists w',
    Users.deleteById (VStr Users.U1) 2000 Users.after_create
    = (Return (Some CommitFailed), w') /\
    kv w' = kv Users.after_create /\
    fst (Users.findById (VStr Users.U1) w') =
      Return (Some [("id", VStr Users.U1); ("email", VStr "a@x.com");
                    ("createdAt", VNum 1000); ("updatedAt", VNum 1000)]).
Proof.
  apply (deleteById_of_existing_record_is_refused zod_uuid
           Users.schema Users.name Users.primaryIndexes Users.U1
           2000 Users.after_create).
  - vm_compute. reflexivity.
  - vm_compute. reflexivity.
  - reflexivity.
  - vm_compute. repeat constructor.
Defined.

(** [updateOne] writes through [updateById]: once the query has found a
    record, the call is [updateById] of that record's identifier. *)
Lemma updateOne_found uuid deepMerge schema name primaryIndexes
  query data now w item w1 :
  z_object (schemaValidationPartialObject schema) data = true ->
  findOne uuid schema name query w = (Return (Some item), w1) ->
  updateOne uuid deepMerge schema name primaryIndexes query data now w
  = updateById uuid deepMerge schema name primaryIndexes
      (get item "id") data now w1.
Proof.
  intros Hd Hf. unfold updateOne, parse, bind at 1. rewrite Hd. simpl.
  unfold bind at 1. rewrite Hf. reflexivity.
Qed.

Lemma stageMutations_values name d op : forall indexes ms,
  stageMutations name indexes d op = Some ms ->
  Forall (fun m => mutation_type m = op /\ mutation_value m = d) ms.
Proof.
  induction indexes as [| x indexes IH]; intros ms H; simpl in H.
  - inversion H. constructor.
  - destruct (mutationKey name d x); [| discriminate].
    destruct (stageMutations name indexes d op) as [ms' |]; [| discriminate].
    inversion H. constructor; [split; reflexivity | now apply IH].
Qed.

(** C5, on the code.  The write that [updateById] issues for a record that
    exists goes through [performTransaction] with the operation [set], for
    which [updateTimestamps] is called as for an insertion: every mutation
    staged for the write carries a record whose [createdAt], like its
    [updatedAt], is the time of the update. *)
Theorem updateById_write_restamps_createdAt :
  forall uuid deepMerge schema name primaryIndexes id data now w item r w',
    uuid id = true ->
    kv_get (kv w) (physicalKey name "id" id) = Some item ->
    updateById uuid deepMerge schema name primaryIndexes
      (VStr id) data now w = (Return r, w') ->
    exists cs ms,
      calls w' =
        calls w ++
        [CallGetMany
           [[VStr name; VStr (getKeysWithIndexes name "id"); VStr id]];
         CallCommit (mkAtomic cs ms)] /\
      (1 <= List.length ms)%nat /\
      Forall
        (fun m =>
           mutation_type m = OpSet /\
           get (mutation_value m) "createdAt" = VNum now /\
           get (mutation_value m) "updatedAt" = VNum now)
        ms.
Proof.
  intros uuid deepMerge schema name primaryIndexes id data now w item r w'
         Hu Hg H.
  pose proof (findById_reads_id_key uuid schema name id w Hu) as Hf.
  unfold findById in Hf. rewrite Hg in Hf.
  unfold updateById, parse, bind at 1 in H.
  destruct (z_object (schemaValidationPartialObject schema) data);
    [| discriminate].
  simpl in H. unfold bind at 1 in H. rewrite Hf in H. unfold bind, ret in H.
  destruct (performTransaction name (schemaPrimaryIndexes primaryIndexes)
              (deepMerge item data) OpSet now _) as [[r0 | e] w0] eqn:Hp;
    [| discriminate].
  inversion H; subst w0. clear H.
  apply performTransaction_returns in Hp. destruct Hp as [ms [Hs Hc]].
  exists (stageChecks name (schemaPrimaryIndexes primaryIndexes)
            (updateTimestamps (deepMerge item data) (is_set OpSet) now)), ms.
  split; [| split].
  - rewrite Hc. unfold record_call. cbn [calls].
    now rewrite <- app_assoc.
  - destruct (schemaPrimaryIndexes_nonempty primaryIndexes) as [L _].
    rewrite (stageMutations_length _ _ _ _ _ Hs). exact L.
  - apply stageMutations_values in Hs. cbn [is_set] in Hs.
    eapply Forall_impl; [| exact Hs].
    intros m [Ht Hv]. rewrite Hv. split; [exact Ht |]. split.
    + apply get_updateTimestamps_createdAt.
    + apply get_updateTimestamps_updatedAt.
Qed.

Lemma updateById_write_restamps_createdAt_witness :
  get [("id", VStr Users.U1); ("email", VStr "a@x.com");
       ("createdAt", VNum 1000); ("updatedAt", VNum 1000)] "createdAt"
  = VNum 1000 /\
  exists cs ms,
    calls (snd (Users.updateById (VStr Users.U1) [("email", VStr "b@x.com")]
                  2000 Users.after_create)) =
      calls Users.after_create ++
      [CallGetMany [[VStr "users"; VStr "users_by_id"; VStr Users.U1]];
       CallCommit (mkAtomic cs ms)] /\
    (1 <= List.length ms)%nat /\
    Forall
      (fun m =>
         mutation_type m = OpSet /\
         get (mutation_value m) "createdAt" = VNum 2000 /\
         get (mutation_value m) "updatedAt" = VNum 2000)
      ms.
Proof.
  split; [reflexivity |].
  apply (updateById_write_restamps_createdAt zod_uuid std_deepMerge
           Users.schema Users.name Users.primaryIndexes Users.U1
           [("email", VStr "b@x.com")] 2000 Users.after_create
           [("id", VStr Users.U1); ("email", VStr "a@x.com");
            ("createdAt", VNum 1000); ("updatedAt", VNum 1000)]
           (Some CommitFailed)).
  - vm_compute. reflexivity.
  - vm_compute. reflexivity.
  - vm_compute. reflexivity.
Defined.

(** * Further properties of the code *)

(** ** What a transaction does to the store *)

Lemma lookup_apply_mutations_other v : forall ms l k,
  (forall m, In m ms -> snd (fst m) <> k) ->
  lookup k (apply_mutations v ms l) = lookup k l.
Proof.
  unfold apply_mutations.
  induction ms as [| [[o k1] r] ms IH]; intros l k H; simpl; [reflexivity |].
  rewrite IH by (intros m Hm; apply H; now right).
  assert (N : k <> k1).
  { intros E. apply (H (o, k1, r)); [now left | now symmetry]. }
  destruct o; simpl.
  - now apply lookup_insert_other.
  - now apply lookup_remove_other.
Qed.

Lemma stageMutations_encode_keys name d op : forall indexes ms,
  stageMutations name indexes d op = Some ms ->
  exists ks,
    encode_mutations ms = Some (map (fun k => (op, k, d)) ks) /\
    Forall2
      (fun index k =>
         exists s, toString (get d index) = Some s /\
                   k = physicalKey name index s)
      indexes ks.
Proof.
  induction indexes as [| x indexes IH]; intros ms H; simpl in H.
  - inversion H. exists []. split; [reflexivity | constructor].
  - unfold mutationKey in H.
    destruct (toString (get d x)) as [sx |] eqn:Ex; [| discriminate].
    destruct (stageMutations name indexes d op) as [ms' |]; [| discriminate].
    destruct (IH ms' eq_refl) as [ks [Hk Hin]].
    inversion H. exists (physicalKey name x sx :: ks). split.
    + cbn - [getKeysWithIndexes]. rewrite Hk. reflexivity.
    + constructor; [now exists sx | exact Hin].
Qed.

Lemma Forall2_In_right {A B} (R : A -> B -> Prop) (l : list A) (l' : list B)
  (y : B) :
  Forall2 R l l' -> In y l' -> exists x, In x l /\ R x y.
Proof.
  induction 1 as [| a b l l' Hab _ IH]; intros Hy; [destruct Hy |].
  destruct Hy as [<- | Hy].
  - exists a. split; [now left | exact Hab].
  - destruct (IH Hy) as [x [Hx HR]]. exists x. split; [now right | exact HR].
Qed.

(** The three ways a call of [performTransaction] can end. *)
Lemma performTransaction_cases name indexes data op now w r w' :
  performTransaction name indexes data op now w = (r, w') ->
  let d := updateTimestamps data (is_set op) now in
  (r = Throw TypeError /\ kv w' = kv w) \/
  (r = Return CommitFailed /\ kv w' = kv w) \/
  (exists ks,
      r = Return (CommitOk (N.succ (version (kv w)))) /\
      kv w' =
        mkKv (apply_mutations (N.succ (version (kv w)))
                (map (fun k => (op, k, d)) ks) (entries (kv w)))
             (N.succ (version (kv w))) /\
      Forall2
        (fun index k =>
           exists s, toString (get d index) = Some s /\
                     k = physicalKey name index s)
        indexes ks).
Proof.
  intros H d. unfold performTransaction in H. fold d in H.
  destruct (stageMutations name indexes d op) as [ms |] eqn:Hs.
  - destruct (stageMutations_encode_keys _ _ _ _ _ Hs) as [ks [Hk HF]].
    unfold db_commit, kv_commit in H. cbn [checks mutations] in H.
    rewrite Hk in H.
    destruct (encode_checks (stageChecks name indexes d)) as [cs |].
    + destruct (forallb (check_holds (kv w)) cs).
      * inversion H. right. right. exists ks. repeat split. exact HF.
      * inversion H. right. left. split; reflexivity.
    + inversion H. left. split; reflexivity.
  - inversion H. left. split; reflexivity.
Qed.

Lemma lookup_apply_deletes d v : forall ks l k,
  (lookup k l = None \/ In k ks) ->
  lookup k (apply_mutations v (map (fun k => (OpDelete, k, d)) ks) l) = None.
Proof.
  unfold apply_mutations.
  induction ks as [| k1 ks IH]; intros l k H; simpl.
  - destruct H as [H | []]. exact H.
  - apply IH. destruct (key_compare k k1) eqn:E.
    + apply key_compare_eq in E. subst k1. left. apply lookup_remove.
    + assert (N : k <> k1).
      { intros ->. rewrite key_compare_refl in E. discriminate. }
      destruct H as [H | [H | H]]; [left | congruence | now right].
      now rewrite lookup_remove_other.
    + assert (N : k <> k1).
      { intros ->. rewrite key_compare_refl in E. discriminate. }
      destruct H as [H | [H | H]]; [left | congruence | now right].
      now rewrite lookup_remove_other.
Qed.

Lemma Forall2_In_left {A B} (R : A -> B -> Prop) (l : list A) (l' : list B)
  (x : A) :
  Forall2 R l l' -> In x l -> exists y, In y l' /\ R x y.
Proof.
  induction 1 as [| a b l l' Hab _ IH]; intros Hx; [destruct Hx |].
  destruct Hx as [<- | Hx].
  - exists b. split; [now left | exact Hab].
  - destruct (IH Hx) as [y [Hy HR]]. exists y. split; [now right | exact HR].
Qed.

(** X1.  A transaction is all or nothing.  When [performTransaction]
    returns [{ ok: true }], the mutation of every primary index has been
    applied: for a [set], every projection key of the stamped record holds
    that record, under the versionstamp the commit returned; for a
    [delete], every projection key is absent.  In every other case (a
    refused commit, a thrown error) the store is exactly as it was. *)
Theorem performTransaction_is_all_or_nothing :
  forall name indexes data op now w,
    match performTransaction name indexes data op now w with
    | (Return (CommitOk v), w') =>
        forall index,
          In index indexes ->
          exists s,
            toString (get (updateTimestamps data (is_set op) now) index)
            = Some s /\
            match op with
            | OpSet =>
                kv_get (kv w') (physicalKey name index s)
                = Some (updateTimestamps data (is_set op) now) /\
                kv_versionstamp (kv w') (physicalKey name index s) = Some v
            | OpDelete => kv_get (kv w') (physicalKey name index s) = None
            end
    | (_, w') => kv w' = kv w
    end.
Proof.
  intros name indexes data op now w.
  destruct (performTransaction name indexes data op now w) as [r w'] eqn:H.
  apply performTransaction_cases in H.
  destruct H as [[-> Hk] | [[-> Hk] | [ks [-> [Hk HF]]]]].
  - exact Hk.
  - exact Hk.
  - intros index Hi.
    destruct (Forall2_In_left _ _ _ _ HF Hi) as [k [Hin [s [Hs ->]]]].
    exists s. split; [exact Hs |].
    unfold kv_get, kv_versionstamp. rewrite Hk. cbn [entries].
    destruct op.
    + rewrite lookup_apply_sets by now right. split; reflexivity.
    + rewrite lookup_apply_deletes by now right. reflexivity.
Qed.

(** A transaction touches no key but the keys of its mutations: whatever the
    outcome, a key that is not the projection key of one of the primary index
    values of the stamped record holds after the call what it held before. *)
Lemma performTransaction_frame name indexes data op now w k :
  (forall index s,
      In index indexes ->
      toString (get (updateTimestamps data (is_set op) now) index) = Some s ->
      k <> physicalKey name index s) ->
  lookup k (entries (kv (snd (performTransaction name indexes data op now w))))
  = lookup k (entries (kv w)).
Proof.
  intros Hk.
  destruct (performTransaction name indexes data op now w) as [r w'] eqn:H.
  apply performTransaction_cases in H. cbn [snd].
  destruct H as [[_ E] | [[_ E] | [ks [_ [E HF]]]]];
    try (rewrite E; reflexivity).
  rewrite E. cbn [entries].
  apply lookup_apply_mutations_other.
  intros m Hm. apply in_map_iff in Hm. destruct Hm as [k1 [<- Hk1]].
  cbn [fst snd].
  destruct (Forall2_In_right _ _ _ _ HF Hk1) as [index [Hi [s [Hs ->]]]].
  intros E'. apply (Hk index s Hi Hs). now symmetry.
Qed.

(** ** Errors before the store is reached *)

(** X3.  Validation comes first: with a record the schema rejects, a
    partial record the partial schema rejects, or a query the query schema
    rejects, [create], [findOne], [find], [updateById], [updateOne] and
    [deleteOne] throw the validation error, and neither the store nor the
    log of store calls has changed. *)
Theorem invalid_input_is_rejected_before_any_store_call :
  forall uuid deepMerge schema name primaryIndexes
         bad_data bad_partial bad_query query id id' now w,
    z_object (schemaValidationObject schema) bad_data = false ->
    z_object (schemaValidationPartialObject schema) bad_partial = false ->
    z_object (schemaValidationPartialObjectWithId uuid schema) bad_query
    = false ->
    create schema name primaryIndexes bad_data id now w
    = (Throw ZodError, w) /\
    findOne uuid schema name bad_query w = (Throw ZodError, w) /\
    find uuid schema name bad_query w = (Throw ZodError, w) /\
    updateById uuid deepMerge schema name primaryIndexes id' bad_partial now w
    = (Throw ZodError, w) /\
    updateOne uuid deepMerge schema name primaryIndexes query bad_partial
      now w = (Throw ZodError, w) /\
    deleteOne uuid schema name primaryIndexes bad_query now w
    = (Throw ZodError, w).
Proof.
  intros uuid deepMerge schema name primaryIndexes
         bad_data bad_partial bad_query query id id' now w Hd Hp Hq.
  unfold create, deleteOne, updateOne, updateById, find, findOne.
  unfold parse, bind. rewrite Hd, Hp, Hq. simpl. repeat split.
Qed.

Lemma invalid_input_is_rejected_before_any_store_call_witness :
  Users.create [] Users.U2 2000 Users.after_create
  = (Throw ZodError, Users.after_create) /\
  Users.findOne [("id", VStr "5")] Users.after_create
  = (Throw ZodError, Users.after_create) /\
  Users.find [("id", VStr "5")] Users.after_create
  = (Throw ZodError, Users.after_create) /\
  Users.updateById (VStr Users.U1) [("email", VNum 1)] 2000
    Users.after_create = (Throw ZodError, Users.after_create) /\
  updateOne zod_uuid std_deepMerge Users.schema Users.name
    Users.primaryIndexes [("email", VStr "a@x.com")] [("email", VNum 1)]
    2000 Users.after_create = (Throw ZodError, Users.after_create) /\
  deleteOne zod_uuid Users.schema Users.name Users.primaryIndexes
    [("id", VStr "5")] 2000 Users.after_create
  = (Throw ZodError, Users.after_create).
Proof.
  apply (invalid_input_is_rejected_before_any_store_call zod_uuid
           std_deepMerge Users.schema Users.name Users.primaryIndexes
           [] [("email", VNum 1)] [("id", VStr "5")]
           [("email", VStr "a@x.com")] Users.U2 (VStr Users.U1) 2000
           Users.after_create); reflexivity.
Defined.

Lemma stageMutations_throws name d op : forall indexes index,
  In index indexes ->
  toString (get d index) = None ->
  stageMutations name indexes d op = None.
Proof.
  induction indexes as [| x indexes IH]; intros index Hi Ht; [destruct Hi |].
  simpl. unfold mutationKey.
  destruct Hi as [-> | Hi]; [now rewrite Ht |].
  destruct (toString (get d x)); [| reflexivity].
  now rewrite (IH index Hi Ht).
Qed.

(** X4.  A record that passes validation but holds no value ([undefined] or
    [null]) in one of the primary index fields cannot be created: [create]
    throws a [TypeError] while it builds the transaction, before any call on
    the store, and the store is unchanged. *)
Theorem create_without_an_index_value_throws :
  forall schema name primaryIndexes data id now w index,
    z_object schema data = true ->
    In index (schemaPrimaryIndexes primaryIndexes) ->
    toString (get (newRecord id data now) index) = None ->
    create schema name primaryIndexes data id now w = (Throw TypeError, w).
Proof.
  intros schema name primaryIndexes data id now w index Hv Hi Ht.
  unfold create, parse, bind, schemaValidationObject. rewrite Hv. simpl.
  unfold performTransaction. cbn [is_set]. unfold newRecord in Ht.
  now rewrite (stageMutations_throws _ _ _ _ index Hi Ht).
Qed.

Lemma create_without_an_index_value_throws_witness :
  create [("email", optional z_string)] "users" (Some ["email"]) []
    Users.U2 2000 Users.after_create
  = (Throw TypeError, Users.after_create).
Proof.
  apply (create_without_an_index_value_throws
           [("email", optional z_string)] "users" (Some ["email"]) []
           Users.U2 2000 Users.after_create "email").
  - reflexivity.
  - vm_compute. tauto.
  - reflexivity.
Defined.

(** ** Point lookups *)

(** What [findOne] does with a query that is valid, not empty, and whose
    values can all be used in keys. *)
Lemma findOne_reads uuid schema name query w ks :
  z_object (schemaValidationPartialObjectWithId uuid schema) query = true ->
  query <> [] ->
  encode_keys
    (map (fun kv =>
            [VStr name; VStr (getKeysWithIndexes name (fst kv)); snd kv])
         query) = Some ks ->
  findOne uuid schema name query w =
    (Return (first_value (map (kv_get (kv w)) ks)),
     record_call
       (CallGetMany
          (map (fun kv =>
                  [VStr name; VStr (getKeysWithIndexes name (fst kv));
                   snd kv])
               query)) w).
Proof.
  intros Hv Hq He. unfold findOne, parse, bind at 1. rewrite Hv. simpl.
  destruct query as [| kv query]; [congruence |]. cbn [is_empty_object].
  unfold bind, db_getMany, ret. rewrite He. reflexivity.
Qed.

(** X5.  After a [create] that commits, the record can be read through
    every primary index whose value is a string: [findOne] on that field
    and value returns the very record that was written, the one [findById]
    returns, and every projection carries the versionstamp the commit
    returned. *)
Theorem created_record_is_found_by_every_string_index :
  forall uuid schema name primaryIndexes data id now w v w' F s,
    create schema name primaryIndexes data id now w
    = (Return (CommitOk v), w') ->
    In F (schemaPrimaryIndexes primaryIndexes) ->
    get (newRecord id data now) F = VStr s ->
    z_object (schemaValidationPartialObjectWithId uuid schema)
      [(F, VStr s)] = true ->
    fst (findOne uuid schema name [(F, VStr s)] w')
    = Return (Some (newRecord id data now)) /\
    kv (snd (findOne uuid schema name [(F, VStr s)] w')) = kv w' /\
    kv_versionstamp (kv w') (physicalKey name F s) = Some v.
Proof.
  intros uuid schema name primaryIndexes data id now w v w' F s
         Hc HF Hs Hv.
  apply create_returns in Hc. destruct Hc as [_ Hp].
  assert (Ht : toString (get (newRecord id data now) F) = Some s)
    by now rewrite Hs.
  destruct (performTransaction_set_stores _ _ _ _ _ _ _ Hp F s HF Ht)
    as [Hg Hvs].
  rewrite (findOne_reads uuid schema name [(F, VStr s)] w'
             [physicalKey name F s] Hv); [| discriminate | reflexivity].
  cbn [map first_value fst snd]. rewrite Hg.
  repeat split. exact Hvs.
Qed.

Lemma created_record_is_found_by_every_string_index_witness :
  fst (Users.findOne [("email", VStr "a@x.com")] Users.after_create)
  = Return (Some (newRecord Users.U1 [("email", VStr "a@x.com")] 1000)) /\
  kv (snd (Users.findOne [("email", VStr "a@x.com")] Users.after_create))
  = kv Users.after_create /\
  kv_versionstamp (kv Users.after_create)
    (physicalKey "users" "email" "a@x.com") = Some 1%N.
Proof.
  apply (created_record_is_found_by_every_string_index zod_uuid
           Users.schema Users.name Users.primaryIndexes
           [("email", VStr "a@x.com")] Users.U1 1000 Users.empty 1%N
           Users.after_create "email" "a@x.com").
  - vm_compute. reflexivity.
  - vm_compute. tauto.
  - reflexivity.
  - reflexivity.
Defined.

(** ** Reads change nothing *)

Lemma findOne_kv uuid schema name query w :
  kv (snd (findOne uuid schema name query w)) = kv w.
Proof.
  unfold findOne, parse, bind.
  destruct (z_object _ query); simpl; [| reflexivity].
  destruct (is_empty_object query); [reflexivity |].
  unfold bind, db_getMany. destruct (encode_keys _); reflexivity.
Qed.

Lemma findOne_calls uuid schema name query w :
  calls (snd (findOne uuid schema name query w)) = calls w \/
  exists keys,
    calls (snd (findOne uuid schema name query w))
    = calls w ++ [CallGetMany keys].
Proof.
  unfold findOne, parse, bind.
  destruct (z_object _ query); simpl; [| now left].
  destruct (is_empty_object query); [now left |].
  unfold bind, db_getMany. right. eexists.
  destruct (encode_keys _); reflexivity.
Qed.

(** X6.  [findOne], [findById] and [find] never change the store, whatever
    the query and whatever the outcome; each makes at most one call on the
    store, a batched read for [findOne], a scan of the collection's prefix
    for [find]. *)
Theorem lookups_never_change_the_store :
  forall uuid schema name query id w,
    kv (snd (findOne uuid schema name query w)) = kv w /\
    kv (snd (findById uuid schema name id w)) = kv w /\
    kv (snd (find uuid schema name query w)) = kv w /\
    (calls (snd (findOne uuid schema name query w)) = calls w \/
     exists keys,
       calls (snd (findOne uuid schema name query w))
       = calls w ++ [CallGetMany keys]) /\
    (calls (snd (find uuid schema name query w)) = calls w \/
     calls (snd (find uuid schema name query w))
     = calls w ++ [CallList [VStr name]]).
Proof.
  intros uuid schema name query id w.
  split; [apply findOne_kv |]. split; [apply findOne_kv |].
  split; [| split; [apply findOne_calls |]].
  - unfold find, parse, bind.
    destruct (z_object _ query); simpl; [| reflexivity].
    destruct (is_empty_object query); reflexivity.
  - unfold find, parse, bind.
    destruct (z_object _ query); simpl; [| now left].
    destruct (is_empty_object query); [now left | now right].
Qed.

(** ** Keys *)

Lemma append_cancel_left (a b c : string) :
  String.append a b = String.append a c -> b = c.
Proof.
  induction a as [| x a IH]; simpl; intros H; [exact H |].
  inversion H. now apply IH.
Qed.

Lemma physicalKey_inj n i s n' i' s' :
  physicalKey n i s = physicalKey n' i' s' -> n = n' /\ i = i' /\ s = s'.
Proof.
  unfold physicalKey, getKeysWithIndexes. intros H. inversion H as [[Hn Hi Hs]].
  subst n'. split; [reflexivity |]. split; [| reflexivity].
  apply append_cancel_left in Hi. now inversion Hi.
Qed.

(** X7.  The key mapping does not confuse projections: when two mutation
    keys built by [performTransaction] are the same key, they are for the
    same collection and the same index field, and the two field values have
    the same string conversion. *)
Theorem mutation_keys_collide_only_on_equal_strings :
  forall n d i n' d' i' k,
    mutationKey n d i = Some k ->
    mutationKey n' d' i' = Some k ->
    n = n' /\ i = i' /\ toString (get d i) = toString (get d' i').
Proof.
  intros n d i n' d' i' k H H'. unfold mutationKey in *.
  destruct (toString (get d i)) as [s |]; [| discriminate].
  destruct (toString (get d' i')) as [s' |]; [| discriminate].
  inversion H; subst k. inversion H' as [[Hn Hi Hs]].
  subst n'. split; [reflexivity |]. split; [| now subst].
  unfold getKeysWithIndexes in Hi.
  apply append_cancel_left in Hi. now inversion Hi.
Qed.

Lemma mutation_keys_collide_only_on_equal_strings_witness :
  "people" = "people" /\ "age" = "age" /\
  toString (get [("age", VNum 30)] "age")
  = toString (get [("age", VStr "30")] "age").
Proof.
  apply (mutation_keys_collide_only_on_equal_strings
           "people" [("age", VNum 30)] "age"
           "people" [("age", VStr "30")] "age"
           [VStr "people"; VStr "people_by_age"; VStr "30"]);
    reflexivity.
Defined.

(** ** Collections do not disturb each other *)

Lemma bind_kv_frame {A B} (m : Async A) (f : A -> Async B) (P : Kv -> Prop) w :
  P (kv (snd (m w))) ->
  (forall a w1, P (kv w1) -> P (kv (snd (f a w1)))) ->
  P (kv (snd (bind m f w))).
Proof.
  intros Hm Hf. unfold bind. destruct (m w) as [[a | e] w1]; simpl in *.
  - now apply Hf.
  - exact Hm.
Qed.

Lemma write_after_lookup_frame uuid schema name indexes query
  (body : record -> record) op now w k :
  (forall index s, In index indexes -> k <> physicalKey name index s) ->
  lookup k
    (entries
       (kv (snd ((item <- findOne uuid schema name query ;;
                  match item with
                  | None => ret None
                  | Some item =>
                      r <- performTransaction name indexes (body item) op
                             now ;;
                      ret (Some r)
                  end) w))))
  = lookup k (entries (kv w)).
Proof.
  intros Hk.
  apply (bind_kv_frame _ _
           (fun db => lookup k (entries db) = lookup k (entries (kv w)))).
  - now rewrite findOne_kv.
  - intros [item |] w1 H1; [| exact H1].
    apply (bind_kv_frame _ _
             (fun db => lookup k (entries db) = lookup k (entries (kv w)))).
    + rewrite performTransaction_frame; [exact H1 |].
      intros index s Hi _. now apply Hk.
    + intros r w2 H2. exact H2.
Qed.

(** X2.  The writes of a collection stay inside the collection: [create],
    [updateById], [updateOne], [deleteById] and [deleteOne], whatever their
    arguments and outcome, leave every key that is not
    [[name, name_by_index, s]] for a primary index of the collection holding
    what it held, value and versionstamp.  Records of another collection in
    the same store are never written or deleted. *)
Theorem writes_stay_inside_the_collection :
  forall uuid deepMerge schema name primaryIndexes
         data id idv query now w k,
    (forall index s,
        In index (schemaPrimaryIndexes primaryIndexes) ->
        k <> physicalKey name index s) ->
    let same w' := lookup k (entries (kv w')) = lookup k (entries (kv w)) in
    same (snd (create schema name primaryIndexes data id now w)) /\
    same (snd (updateById uuid deepMerge schema name primaryIndexes
                 idv data now w)) /\
    same (snd (updateOne uuid deepMerge schema name primaryIndexes
                 query data now w)) /\
    same (snd (deleteById uuid schema name primaryIndexes idv now w)) /\
    same (snd (deleteOne uuid schema name primaryIndexes query now w)).
Proof.
  intros uuid deepMerge schema name primaryIndexes data id idv query now w k
         Hk same. unfold same.
  assert (U : forall idv' w0,
             kv w0 = kv w ->
             lookup k
               (entries
                  (kv (snd (updateById uuid deepMerge schema name
                              primaryIndexes idv' data now w0))))
             = lookup k (entries (kv w))).
  { intros idv' w0 E. unfold updateById, parse.
    apply (bind_kv_frame _ _
             (fun db => lookup k (entries db) = lookup k (entries (kv w)))).
    - destruct (z_object _ data); simpl; now rewrite E.
    - intros _ w1 H1.
      rewrite (write_after_lookup_frame uuid schema name
                 (schemaPrimaryIndexes primaryIndexes) [("id", idv')]
                 (fun item => deepMerge item data) OpSet now w1 k Hk).
      exact H1. }
  repeat split.
  - unfold create, parse.
    apply (bind_kv_frame _ _
             (fun db => lookup k (entries db) = lookup k (entries (kv w)))).
    + destruct (z_object _ data); reflexivity.
    + intros _ w1 H1. rewrite performTransaction_frame; [exact H1 |].
      intros index s Hi _. now apply Hk.
  - now apply U.
  - unfold updateOne, parse.
    apply (bind_kv_frame _ _
             (fun db => lookup k (entries db) = lookup k (entries (kv w)))).
    + destruct (z_object _ data); reflexivity.
    + intros _ w1 H1.
      apply (bind_kv_frame _ _
               (fun db => lookup k (entries db) = lookup k (entries (kv w)))).
      * now rewrite findOne_kv.
      * intros [item |] w2 H2; [| exact H2].
        unfold updateById, parse.
        apply (bind_kv_frame _ _
                 (fun db =>
                    lookup k (entries db) = lookup k (entries (kv w)))).
        -- destruct (z_object _ data); simpl; exact H2.
        -- intros _ w3 H3.
           rewrite (write_after_lookup_frame uuid schema name
                      (schemaPrimaryIndexes primaryIndexes)
                      [("id", get item "id")]
                      (fun item => deepMerge item data) OpSet now w3 k Hk).
           exact H3.
  - unfold deleteById.
    apply (write_after_lookup_frame uuid schema name
             (schemaPrimaryIndexes primaryIndexes) [("id", idv)]
             (fun item => item) OpDelete now w k Hk).
  - unfold deleteOne.
    apply (write_after_lookup_frame uuid schema name
             (schemaPrimaryIndexes primaryIndexes) query
             (fun item => item) OpDelete now w k Hk).
Qed.

Lemma writes_stay_inside_the_collection_witness :
  lookup (physicalKey "users" "id" Users.U1)
    (entries
       (kv (snd (create People.schema People.name People.primaryIndexes
                   [("age", VNum 30)] People.P1 1000 Users.after_create))))
  = lookup (physicalKey "users" "id" Users.U1)
      (entries (kv Users.after_create)).
Proof.
  apply (writes_stay_inside_the_collection zod_uuid std_deepMerge
           People.schema People.name People.primaryIndexes
           [("age", VNum 30)] People.P1 (VStr People.P1)
           [("age", VNum 30)] 1000 Users.after_create
           (physicalKey "users" "id" Users.U1)).
  intros index s _ E. inversion E.
Defined.

(** ** Primary index values that are numbers *)

Lemma toString_number n : toString (VNum n) = Some (string_of_Z n).
Proof. reflexivity. Qed.

(** X8.  A record created with a number (a safe integer) in a primary index
    field is stored under the decimal rendering of the number, and the same
    number does not find it: after the [create] has committed, [findOne] on that field and
    number returns [null] (the key with the number itself is one this code
    never writes), while the key of the number's string holds the record. *)
Theorem record_is_not_found_by_its_number_value :
  forall uuid schema name primaryIndexes data id now w v w' F n,
    create schema name primaryIndexes data id now w
    = (Return (CommitOk v), w') ->
    In F (schemaPrimaryIndexes primaryIndexes) ->
    get (newRecord id data now) F = VNum n ->
    safe_integer n ->
    kv_get (kv w)
      [KString name; KString (getKeysWithIndexes name F); KNumber n] = None ->
    z_object (schemaValidationPartialObjectWithId uuid schema)
      [(F, VNum n)] = true ->
    fst (findOne uuid schema name [(F, VNum n)] w') = Return None /\
    kv_get (kv w') (physicalKey name F (string_of_Z n))
    = Some (newRecord id data now).
Proof.
  intros uuid schema name primaryIndexes data id now w v w' F n
         Hc HF Hn _ Hfree Hv.
  apply create_returns in Hc. destruct Hc as [_ Hp]. split.
  - rewrite (findOne_reads uuid schema name [(F, VNum n)] w'
               [[KString name; KString (getKeysWithIndexes name F);
                 KNumber n]] Hv); [| discriminate | reflexivity].
    cbn [map first_value fst]. unfold kv_get in *.
    replace w' with
      (snd (performTransaction name (schemaPrimaryIndexes primaryIndexes)
              (spread [("id", VStr id)] data) OpSet now w))
      by now rewrite Hp.
    rewrite performTransaction_frame.
    + now rewrite Hfree.
    + intros index s _ _ E. inversion E.
  - assert (Ht : toString (get (newRecord id data now) F)
                 = Some (string_of_Z n)) by now rewrite Hn.
    apply (performTransaction_set_stores _ _ _ _ _ _ _ Hp F _ HF Ht).
Qed.

Lemma record_is_not_found_by_its_number_value_witness :
  fst (findOne zod_uuid People.schema People.name [("age", VNum 30)]
         People.after_create) = Return None /\
  kv_get (kv People.after_create) (physicalKey "people" "age" "30")
  = Some (newRecord People.P1 [("age", VNum 30)] 1000).
Proof.
  apply (record_is_not_found_by_its_number_value zod_uuid People.schema
           People.name People.primaryIndexes [("age", VNum 30)] People.P1
           1000 (mkWorld (mkKv [] 0%N) []) 1%N People.after_create "age" 30).
  - vm_compute. reflexivity.
  - vm_compute. tauto.
  - reflexivity.
  - unfold safe_integer. simpl. lia.
  - reflexivity.
  - reflexivity.
Defined.

(** X9.  Uniqueness is not enforced for number values (safe integers).  The check for a
    number is on the key with the number, the write on the key with its
    string, so two [create] calls with the same number in a primary index
    field can both commit; when they do, the projection on that field holds
    the second record, and the first record is still stored under its
    identifier. *)
Theorem second_create_with_a_number_takes_over_the_projection :
  forall schema name primaryIndexes F n d1 id1 now1 d2 id2 now2
         w v1 w1 v2 w2,
    create schema name primaryIndexes d1 id1 now1 w
    = (Return (CommitOk v1), w1) ->
    create schema name primaryIndexes d2 id2 now2 w1
    = (Return (CommitOk v2), w2) ->
    In F (schemaPrimaryIndexes primaryIndexes) ->
    safe_integer n ->
    get (newRecord id1 d1 now1) F = VNum n ->
    get (newRecord id2 d2 now2) F = VNum n ->
    get (newRecord id1 d1 now1) "id" = VStr id1 ->
    get (newRecord id2 d2 now2) "id" = VStr id2 ->
    id1 <> id2 ->
    kv_get (kv w1) (physicalKey name F (string_of_Z n))
    = Some (newRecord id1 d1 now1) /\
    kv_get (kv w2) (physicalKey name F (string_of_Z n))
    = Some (newRecord id2 d2 now2) /\
    kv_get (kv w2) (physicalKey name "id" id1)
    = Some (newRecord id1 d1 now1).
Proof.
  intros schema name primaryIndexes F n d1 id1 now1 d2 id2 now2
         w v1 w1 v2 w2 H1 H2 HF _ Hn1 Hn2 Hi1 Hi2 Hne.
  apply create_returns in H1. destruct H1 as [_ H1].
  apply create_returns in H2. destruct H2 as [_ H2].
  assert (T1 : toString (get (newRecord id1 d1 now1) F)
               = Some (string_of_Z n)) by now rewrite Hn1.
  assert (T2 : toString (get (newRecord id2 d2 now2) F)
               = Some (string_of_Z n)) by now rewrite Hn2.
  assert (I1 : toString (get (newRecord id1 d1 now1) "id") = Some id1)
    by now rewrite Hi1.
  split; [| split].
  - apply (performTransaction_set_stores _ _ _ _ _ _ _ H1 F _ HF T1).
  - apply (performTransaction_set_stores _ _ _ _ _ _ _ H2 F _ HF T2).
  - unfold kv_get.
    replace w2 with
      (snd (performTransaction name (schemaPrimaryIndexes primaryIndexes)
              (spread [("id", VStr id2)] d2) OpSet now2 w1))
      by now rewrite H2.
    rewrite performTransaction_frame.
    + apply (performTransaction_set_stores _ _ _ _ _ _ _ H1 "id" id1
               (id_in_schemaPrimaryIndexes primaryIndexes) I1).
    + intros index s Hi Hs E. apply physicalKey_inj in E.
      destruct E as [_ [Ei Es]]. subst index s.
      cbn [is_set] in Hs. fold (newRecord id2 d2 now2) in Hs.
      rewrite Hi2 in Hs. inversion Hs. congruence.
Qed.

Lemma second_create_with_a_number_takes_over_the_projection_witness :
  let w2 := snd (create People.schema People.name People.primaryIndexes
                   [("age", VNum 30)] People.P2 1001 People.after_create) in
  kv_get (kv People.after_create) (physicalKey "people" "age" "30")
  = Some (newRecord People.P1 [("age", VNum 30)] 1000) /\
  kv_get (kv w2) (physicalKey "people" "age" "30")
  = Some (newRecord People.P2 [("age", VNum 30)] 1001) /\
  kv_get (kv w2) (physicalKey "people" "id" People.P1)
  = Some (newRecord People.P1 [("age", VNum 30)] 1000).
Proof.
  apply (second_create_with_a_number_takes_over_the_projection
           People.schema People.name People.primaryIndexes "age" 30
           [("age", VNum 30)] People.P1 1000
           [("age", VNum 30)] People.P2 1001
           (mkWorld (mkKv [] 0%N) []) 1%N People.after_create 2%N).
  - vm_compute. reflexivity.
  - vm_compute. reflexivity.
  - vm_compute. tauto.
  - unfold safe_integer. simpl. lia.
  - reflexivity.
  - reflexivity.
  - reflexivity.
  - reflexivity.
  - discriminate.
Defined.

(** ** Queries with several fields *)

Lemma encode_keys_app : forall (a b : list JsKey) ka kb,
  encode_keys a = Some ka -> encode_keys b = Some kb ->
  encode_keys (a ++ b) = Some (ka ++ kb).
Proof.
  induction a as [| x a IH]; intros b ka kb Ha Hb; simpl in *.
  - inversion Ha. exact Hb.
  - destruct (encode_key x) as [e |]; [| discriminate].
    destruct (encode_keys a) as [es |]; [| discriminate].
    inversion Ha. now rewrite (IH b es kb eq_refl Hb).
Qed.

Lemma first_value_skips (db : Kv) : forall absent rest,
  Forall (fun k => kv_get db k = None) absent ->
  first_value (map (kv_get db) (absent ++ rest))
  = first_value (map (kv_get db) rest).
Proof.
  induction 1 as [| k absent Hk _ IH]; simpl; [reflexivity |].
  now rewrite Hk.
Qed.

(** X10.  [findOne] returns the record of the first queried field whose key
    holds one, in the order of the query's fields, and does not compare the
    other fields with it: when the keys of the fields before [k] hold
    nothing and the key of [k] holds a record, that record is returned
    whatever the fields after [k] ask for.  (The order of the fields is
    the order they were written in, for field names that are not
    integer-like.) *)
Theorem findOne_returns_the_first_field_that_is_present :
  forall uuid schema name before k v after w kb p ka r,
    z_object (schemaValidationPartialObjectWithId uuid schema)
      (before ++ (k, v) :: after) = true ->
    Forall (fun kv => integer_like (fst kv) = false)
           (before ++ (k, v) :: after) ->
    encode_keys
      (map (fun kv =>
              [VStr name; VStr (getKeysWithIndexes name (fst kv)); snd kv])
           before) = Some kb ->
    Forall (fun key => kv_get (kv w) key = None) kb ->
    encode_part v = Some p ->
    kv_get (kv w) [KString name; KString (getKeysWithIndexes name k); p]
    = Some r ->
    encode_keys
      (map (fun kv =>
              [VStr name; VStr (getKeysWithIndexes name (fst kv)); snd kv])
           after) = Some ka ->
    fst (findOne uuid schema name (before ++ (k, v) :: after) w)
    = Return (Some r).
Proof.
  intros uuid schema name before k v after w kb p ka r
         Hv _ Hkb Habs Hp Hg Hka.
  rewrite (findOne_reads uuid schema name (before ++ (k, v) :: after) w
             (kb ++
              [KString name; KString (getKeysWithIndexes name k); p] :: ka)
             Hv).
  - cbn [fst]. rewrite first_value_skips by exact Habs.
    cbn [map first_value]. now rewrite Hg.
  - destruct before; discriminate.
  - rewrite map_app. apply encode_keys_app; [exact Hkb |].
    cbn [map encode_keys encode_key encode_part fst snd].
    rewrite Hp, Hka. reflexivity.
Qed.

Lemma findOne_returns_the_first_field_that_is_present_witness :
  fst (Users.findOne
         [("id", VStr Users.U2); ("email", VStr "a@x.com");
          ("name", VStr "nobody")]
         Users.after_create)
  = Return (Some (newRecord Users.U1 [("email", VStr "a@x.com")] 1000)).
Proof.
  apply (findOne_returns_the_first_field_that_is_present zod_uuid
           Users.schema Users.name
           [("id", VStr Users.U2)] "email" (VStr "a@x.com")
           [("name", VStr "nobody")] Users.after_create
           [[KString "users"; KString "users_by_id"; KString Users.U2]]
           (KString "a@x.com")
           [[KString "users"; KString "users_by_name"; KString "nobody"]]).
  - reflexivity.
  - repeat constructor.
  - reflexivity.
  - repeat constructor.
  - reflexivity.
  - reflexivity.
  - reflexivity.
Defined.

(** ** Writes on a record that is not there, or that is there *)

(** X11.  When the lookup finds nothing, [updateOne], [deleteOne],
    [updateById] and [deleteById] return [null] and do nothing more: the
    store is unchanged and no call follows the read. *)
Theorem writes_on_an_absent_record_return_null :
  forall uuid deepMerge schema name primaryIndexes query data now w w1,
    z_object (schemaValidationPartialObject schema) data = true ->
    findOne uuid schema name query w = (Return None, w1) ->
    updateOne uuid deepMerge schema name primaryIndexes query data now w
    = (Return None, w1) /\
    deleteOne uuid schema name primaryIndexes query now w
    = (Return None, w1) /\
    (forall id, query = [("id", id)] ->
       updateById uuid deepMerge schema name primaryIndexes id data now w
       = (Return None, w1) /\
       deleteById uuid schema name primaryIndexes id now w
       = (Return None, w1)) /\
    kv w1 = kv w.
Proof.
  intros uuid deepMerge schema name primaryIndexes query data now w w1
         Hd Hf.
  repeat split.
  - unfold updateOne, parse, bind at 1. rewrite Hd. simpl.
    unfold bind. now rewrite Hf.
  - unfold deleteOne, bind. now rewrite Hf.
  - subst query. unfold updateById, parse, bind at 1. rewrite Hd. simpl.
    unfold bind. now rewrite Hf.
  - subst query. unfold deleteById, bind. now rewrite Hf.
  - rewrite <- (findOne_kv uuid schema name query w). now rewrite Hf.
Qed.

Lemma writes_on_an_absent_record_return_null_witness :
  deleteOne zod_uuid Users.schema Users.name Users.primaryIndexes
    [("email", VStr "nobody@x.com")] 2000 Users.after_create
  = (Return None,
     record_call
       (CallGetMany
          [[VStr "users"; VStr "users_by_email"; VStr "nobody@x.com"]])
       Users.after_create).
Proof.
  apply (writes_on_an_absent_record_return_null zod_uuid std_deepMerge
           Users.schema Users.name Users.primaryIndexes
           [("email", VStr "nobody@x.com")] [] 2000 Users.after_create);
    reflexivity.
Defined.

(** X12.  [deleteOne] cannot delete a record it finds: when the found record
    holds a string in a primary index field whose key is taken (as the key
    it was found under is), the delete transaction is refused by its own
    check, [deleteOne] returns [{ ok: false }] and the store is unchanged. *)
Theorem deleteOne_of_a_found_record_is_refused :
  forall uuid schema name primaryIndexes query now w item w1 F s v,
    findOne uuid schema name query w = (Return (Some item), w1) ->
    In F (schemaPrimaryIndexes primaryIndexes) ->
    get (updateTimestamps item false now) F = VStr s ->
    kv_versionstamp (kv w) (physicalKey name F s) = Some v ->
    Forall
      (fun index =>
         usable (get (updateTimestamps item false now) index) = true)
      (schemaPrimaryIndexes primaryIndexes) ->
    exists w',
      deleteOne uuid schema name primaryIndexes query now w
      = (Return (Some CommitFailed), w') /\
      kv w' = kv w.
Proof.
  intros uuid schema name primaryIndexes query now w item w1 F s v
         Hf HF Hs Hv Hu.
  assert (E1 : kv w1 = kv w).
  { rewrite <- (findOne_kv uuid schema name query w). now rewrite Hf. }
  rewrite <- E1 in Hv.
  destruct (performTransaction_refused name
              (schemaPrimaryIndexes primaryIndexes) item OpDelete now w1
              F s v Hu HF Hs Hv) as [w' [Hr Hk]].
  exists w'. split; [| congruence].
  unfold deleteOne, bind at 1. rewrite Hf. unfold bind. now rewrite Hr.
Qed.

Lemma deleteOne_of_a_found_record_is_refused_witness :
  exists w',
    deleteOne zod_uuid Users.schema Users.name Users.primaryIndexes
      [("email", VStr "a@x.com")] 2000 Users.after_create
    = (Return (Some CommitFailed), w') /\
    kv w' = kv Users.after_create.
Proof.
  apply (deleteOne_of_a_found_record_is_refused zod_uuid Users.schema
           Users.name Users.primaryIndexes [("email", VStr "a@x.com")] 2000
           Users.after_create
           (newRecord Users.U1 [("email", VStr "a@x.com")] 1000)
           (record_call
              (CallGetMany
                 [[VStr "users"; VStr "users_by_email"; VStr "a@x.com"]])
              Users.after_create)
           "email" "a@x.com" 1%N).
  - reflexivity.
  - vm_compute. tauto.
  - reflexivity.
  - reflexivity.
  - vm_compute. repeat constructor.
Defined.

(** X13.  [updateOne] cannot update a record it finds: it goes on as
    [updateById] of the found record's identifier, and when the record read
    back under that identifier, merged with the new data, holds a string in
    a primary index field whose key is taken, the write is refused by its
    own check; [updateOne] returns [{ ok: false }] and the store is
    unchanged. *)
Theorem updateOne_of_a_found_record_is_refused :
  forall uuid deepMerge schema name primaryIndexes query data now w
         item w1 id stored F s v,
    z_object (schemaValidationPartialObject schema) data = true ->
    findOne uuid schema name query w = (Return (Some item), w1) ->
    get item "id" = VStr id ->
    uuid id = true ->
    kv_get (kv w) (physicalKey name "id" id) = Some stored ->
    In F (schemaPrimaryIndexes primaryIndexes) ->
    get (updateTimestamps (deepMerge stored data) true now) F = VStr s ->
    kv_versionstamp (kv w) (physicalKey name F s) = Some v ->
    Forall
      (fun index =>
         usable (get (updateTimestamps (deepMerge stored data) true now)
                   index) = true)
      (schemaPrimaryIndexes primaryIndexes) ->
    exists w',
      updateOne uuid deepMerge schema name primaryIndexes query data now w
      = (Return (Some CommitFailed), w') /\
      kv w' = kv w.
Proof.
  intros uuid deepMerge schema name primaryIndexes query data now w
         item w1 id stored F s v Hd Hf Hid Hu Hg HF Hs Hv Hus.
  assert (E1 : kv w1 = kv w).
  { rewrite <- (findOne_kv uuid schema name query w). now rewrite Hf. }
  pose proof (findById_reads_id_key uuid schema name id w1 Hu) as Hf2.
  unfold findById in Hf2. rewrite E1, Hg in Hf2.
  set (w2 := record_call
               (CallGetMany
                  [[VStr name; VStr (getKeysWithIndexes name "id");
                    VStr id]]) w1) in *.
  assert (E2 : kv w2 = kv w) by exact E1.
  rewrite <- E2 in Hv.
  destruct (performTransaction_refused name
              (schemaPrimaryIndexes primaryIndexes) (deepMerge stored data)
              OpSet now w2 F s v Hus HF Hs Hv) as [w' [Hr Hk]].
  exists w'. split; [| congruence].
  rewrite (updateOne_found uuid deepMerge schema name primaryIndexes
             query data now w item w1 Hd Hf).
  rewrite Hid. unfold updateById, parse, bind at 1. rewrite Hd. simpl.
  unfold bind at 1. rewrite Hf2. unfold bind. now rewrite Hr.
Qed.

Lemma updateOne_of_a_found_record_is_refused_witness :
  exists w',
    updateOne zod_uuid std_deepMerge Users.schema Users.name
      Users.primaryIndexes [("email", VStr "a@x.com")]
      [("email", VStr "b@x.com")] 2000 Users.after_create
    = (Return (Some CommitFailed), w') /\
    kv w' = kv Users.after_create.
Proof.
  apply (updateOne_of_a_found_record_is_refused zod_uuid std_deepMerge
           Users.schema Users.name Users.primaryIndexes
           [("email", VStr "a@x.com")] [("email", VStr "b@x.com")] 2000
           Users.after_create
           (newRecord Users.U1 [("email", VStr "a@x.com")] 1000)
           (record_call
              (CallGetMany
                 [[VStr "users"; VStr "users_by_email"; VStr "a@x.com"]])
              Users.after_create)
           Users.U1
           (newRecord Users.U1 [("email", VStr "a@x.com")] 1000)
           "id" Users.U1 1%N).
  - reflexivity.
  - reflexivity.
  - reflexivity.
  - vm_compute. reflexivity.
  - reflexivity.
  - vm_compute. tauto.
  - reflexivity.
  - reflexivity.
  - vm_compute. repeat constructor.
Defined.

(** ** The order of the primary indexes *)

Lemma fold_js_set_fresh : forall l acc,
  NoDup (acc ++ l) -> fold_left js_set_step l acc = acc ++ l.
Proof.
  induction l as [| x l IH]; intros acc H; simpl.
  - now rewrite app_nil_r.
  - assert (Hx : ~ In x acc).
    { intros Hin. apply NoDup_remove_2 in H. apply H.
      apply in_or_app. now left. }
    unfold js_set_step at 2.
    destruct (existsb (String.eqb x) acc) eqn:E.
    + apply existsb_eqb_In in E. contradiction.
    + rewrite IH; rewrite <- app_assoc; [reflexivity | exact H].
Qed.

(** X14.  The effective primary indexes are the caller's, in the caller's
    order, with ["id"] last unless the caller listed it: for a list without
    repetition, the list itself when it holds ["id"], the list followed by
    ["id"] when it does not; and [["id"]] alone when the caller gives no
    list.  This is the order in which [performTransaction] stages its checks
    and its mutations. *)
Theorem effective_primary_indexes_keep_the_callers_order :
  forall l,
    NoDup l ->
    schemaPrimaryIndexes None = ["id"] /\
    (In "id" l -> schemaPrimaryIndexes (Some l) = l) /\
    (~ In "id" l -> schemaPrimaryIndexes (Some l) = l ++ ["id"]).
Proof.
  intros l Hl. split; [reflexivity |].
  assert (E : schemaPrimaryIndexes (Some l) = js_set_step l "id").
  { unfold schemaPrimaryIndexes, js_set, or_empty.
    rewrite fold_left_app. simpl. f_equal.
    now apply (fold_js_set_fresh l []). }
  rewrite E. unfold js_set_step. split; intros H.
  - apply existsb_eqb_In in H. now rewrite H.
  - destruct (existsb (String.eqb "id") l) eqn:Ex; [| reflexivity].
    apply existsb_eqb_In in Ex. contradiction.
Qed.

Lemma effective_primary_indexes_keep_the_callers_order_witness :
  schemaPrimaryIndexes None = ["id"] /\
  (In "id" ["email"; "phone"] ->
   schemaPrimaryIndexes (Some ["email"; "phone"]) = ["email"; "phone"]) /\
  (~ In "id" ["email"; "phone"] ->
   schemaPrimaryIndexes (Some ["email"; "phone"])
   = ["email"; "phone"] ++ ["id"]).
Proof.
  apply (effective_primary_indexes_keep_the_callers_order ["email"; "phone"]).
  repeat constructor; simpl; intuition discriminate.
Defined.

(** ** [deleteAll] *)

Lemma encode_decode_key (k : KvKey) : encode_key (decode_key k) = Some k.
Proof.
  induction k as [| p k IH]; [reflexivity |].
  unfold decode_key in *. cbn [map encode_key]. rewrite IH.
  destruct p; reflexivity.
Qed.

Lemma db_delete_spec (k : KvKey) w :
  db_delete (decode_key k) w =
    (Return tt,
     mkWorld
       (mkKv (remove k (entries (kv w))) (N.succ (version (kv w))))
       (calls w ++
        [CallCommit (mkAtomic [] [mkMutation OpDelete (decode_key k) []])])).
Proof.
  unfold db_delete, bind, db_commit, kv_commit.
  cbn [checks mutations encode_checks encode_mutations mutation_key
       mutation_type mutation_value].
  rewrite encode_decode_key. reflexivity.
Qed.

Lemma delete_each_spec : forall scan w,
  exists w',
    delete_each scan w = (Return tt, w') /\
    entries (kv w') = remove_each (map fst scan) (entries (kv w)) /\
    version (kv w') = (version (kv w) + N.of_nat (List.length scan))%N.
Proof.
  induction scan as [| e scan IH]; intros w.
  - exists w. simpl. repeat split. now rewrite N.add_0_r.
  - cbn [delete_each]. unfold bind at 1. rewrite db_delete_spec.
    destruct (IH (mkWorld
                    (mkKv (remove (fst e) (entries (kv w)))
                          (N.succ (version (kv w))))
                    (calls w ++
                     [CallCommit
                        (mkAtomic []
                           [mkMutation OpDelete (decode_key (fst e)) []])])))
      as [w' [Hr [He Hv]]].
    exists w'. split; [exact Hr |]. split; [exact He |].
    rewrite Hv. cbn [kv version List.length]. lia.
Qed.

Lemma In_remove k0 : forall l x,
  In x (remove k0 l) -> In x l /\ fst x <> k0.
Proof.
  induction l as [| [k' e'] l IH]; intros x H; simpl in H; [destruct H |].
  destruct (key_compare k0 k') eqn:E.
  - destruct (IH x H). split; [now right | assumption].
  - destruct H as [<- | H].
    + split; [now left |]. simpl. intros ->.
      rewrite key_compare_refl in E. discriminate.
    + destruct (IH x H). split; [now right | assumption].
  - destruct H as [<- | H].
    + split; [now left |]. simpl. intros ->.
      rewrite key_compare_refl in E. discriminate.
    + destruct (IH x H). split; [now right | assumption].
Qed.

Lemma In_remove_each : forall ks l x,
  In x (remove_each ks l) -> In x l /\ ~ In (fst x) ks.
Proof.
  unfold remove_each.
  induction ks as [| k ks IH]; intros l x H; simpl in *; [tauto |].
  destruct (IH _ _ H) as [H1 H2]. apply In_remove in H1.
  destruct H1 as [H1 H3]. split; [exact H1 |].
  intros [E | E]; [now apply H3 | now apply H2].
Qed.

Lemma lookup_remove_each_other : forall ks l k,
  ~ In k ks -> lookup k (remove_each ks l) = lookup k l.
Proof.
  unfold remove_each.
  induction ks as [| k1 ks IH]; intros l k H; simpl; [reflexivity |].
  rewrite IH by (intros E; apply H; now right).
  apply lookup_remove_other. intros ->. apply H. now left.
Qed.

Lemma lookup_In k : forall l e, lookup k l = Some e -> In (k, e) l.
Proof.
  induction l as [| [k' e'] l IH]; intros e H; simpl in H; [discriminate |].
  destruct (key_compare k k') eqn:E.
  - apply key_compare_eq in E. subst k'. inversion H. now left.
  - right. now apply IH.
  - right. now apply IH.
Qed.

Lemma filter_none {A} (f : A -> bool) (l : list A) :
  (forall x, In x l -> f x = false) -> filter f l = [].
Proof.
  induction l as [| x l IH]; intros H; simpl; [reflexivity |].
  rewrite (H x (or_introl eq_refl)). apply IH.
  intros y Hy. apply H. now right.
Qed.

(** After [deleteAll], no entry of the store is under the prefix. *)
Lemma deleteAll_spec name w :
  exists w',
    deleteAll name w = (Return tt, w') /\
    entries (kv w') =
      remove_each (map fst (kv_list (kv w) [KString name]))
                  (entries (kv w)) /\
    version (kv w') =
      (version (kv w)
       + N.of_nat (List.length (kv_list (kv w) [KString name])))%N /\
    (forall x, In x (entries (kv w')) ->
               has_prefix [KString name] (fst x) = false).
Proof.
  unfold deleteAll, bind, db_list. cbn [encode_key encode_part].
  destruct (delete_each_spec (kv_list (kv w) [KString name])
              (record_call (CallList [VStr name]) w))
    as [w' [Hr [He Hv]]].
  exists w'. split; [exact Hr |]. split; [exact He |]. split; [exact Hv |].
  intros x Hx. rewrite He in Hx. cbn [record_call kv] in Hx.
  apply In_remove_each in Hx. destruct Hx as [Hx Hn].
  destruct (has_prefix [KString name] (fst x)) eqn:E; [| reflexivity].
  exfalso. apply Hn. unfold kv_list. rewrite map_map. cbn [fst].
  apply in_map_iff. exists x. split; [reflexivity |].
  apply filter_In. now split.
Qed.

(** X15.  [deleteAll] does not throw and empties the collection: afterwards
    the scan of the collection's prefix is empty and every key under the
    prefix reads as absent.  Keys outside the prefix hold what they held. *)
Theorem deleteAll_empties_the_collection_and_nothing_else :
  forall name w,
    exists w',
      deleteAll name w = (Return tt, w') /\
      kv_list (kv w') [KString name] = [] /\
      (forall k, has_prefix [KString name] k = true ->
                 kv_get (kv w') k = None) /\
      (forall k, has_prefix [KString name] k = false ->
                 lookup k (entries (kv w')) = lookup k (entries (kv w))).
Proof.
  intros name w.
  destruct (deleteAll_spec name w) as [w' [Hr [He [_ Hp]]]].
  exists w'. split; [exact Hr |]. split; [| split].
  - unfold kv_list. rewrite (filter_none _ _ Hp). reflexivity.
  - intros k Hk. unfold kv_get.
    destruct (lookup k (entries (kv w'))) as [e |] eqn:E; [| reflexivity].
    apply lookup_In in E. apply Hp in E. cbn [fst] in E. congruence.
  - intros k Hk. rewrite He. apply lookup_remove_each_other.
    intros Hin. unfold kv_list in Hin. rewrite map_map in Hin.
    apply in_map_iff in Hin. destruct Hin as [x [Ex Hx]].
    apply filter_In in Hx. cbn [fst] in Ex. rewrite Ex in Hx.
    destruct Hx as [_ Hx]. congruence.
Qed.

Lemma query_keys_under_prefix name : forall (query : record) ks,
  encode_keys
    (map (fun kv =>
            [VStr name; VStr (getKeysWithIndexes name (fst kv)); snd kv])
         query) = Some ks ->
  Forall (fun k => has_prefix [KString name] k = true) ks.
Proof.
  induction query as [| [f v] query IH]; intros ks H.
  - inversion H. constructor.
  - cbn [map encode_keys encode_key encode_part fst snd] in H.
    destruct (encode_part v) as [p |]; [| discriminate].
    destruct (encode_keys _) as [ks' |]; [| discriminate].
    inversion H. constructor; [| now apply IH].
    cbn [has_prefix]. now rewrite part_compare_refl.
Qed.

Lemma first_value_none (db : Kv) : forall ks,
  Forall (fun k => kv_get db k = None) ks ->
  first_value (map (kv_get db) ks) = None.
Proof.
  induction 1 as [| k ks Hk _ IH]; simpl; [reflexivity |].
  now rewrite Hk.
Qed.

(** X16.  After [deleteAll] nothing is found in the collection: for a query
    that is valid and not empty, [find] returns the empty array (not
    [null]), and [findOne], when the query's values can be used in keys,
    returns [null]. *)
Theorem after_deleteAll_nothing_is_found :
  forall uuid schema name query w,
    query <> [] ->
    z_object (schemaValidationPartialObjectWithId uuid schema) query = true ->
    let w' := snd (deleteAll name w) in
    fst (find uuid schema name query w') = Return (Some []) /\
    (forall ks,
        encode_keys
          (map (fun kv =>
                  [VStr name; VStr (getKeysWithIndexes name (fst kv));
                   snd kv])
               query) = Some ks ->
        fst (findOne uuid schema name query w') = Return None).
Proof.
  intros uuid schema name query w Hq Hv w'.
  destruct (deleteAll_spec name w) as [w0 [Hr [_ [_ Hp]]]].
  assert (Ew : w' = w0) by (unfold w'; now rewrite Hr).
  rewrite Ew. clear Ew w'. split.
  - unfold find, parse, bind at 1. rewrite Hv. simpl.
    destruct query as [| kv query]; [congruence |]. cbn [is_empty_object].
    unfold bind, db_list, ret. cbn [encode_key encode_part fst].
    unfold kv_list. rewrite (filter_none _ _ Hp). reflexivity.
  - intros ks Hks.
    rewrite (findOne_reads uuid schema name query w0 ks Hv Hq Hks).
    cbn [fst]. rewrite first_value_none; [reflexivity |].
    apply query_keys_under_prefix in Hks.
    eapply Forall_impl; [| exact Hks].
    intros k Hk. cbv beta in Hk. unfold kv_get.
    destruct (lookup k (entries (kv w0))) as [e |] eqn:E; [| reflexivity].
    apply lookup_In in E. apply Hp in E. cbn [fst] in E. congruence.
Qed.

Lemma after_deleteAll_nothing_is_found_witness :
  fst (Users.find [("email", VStr "a@x.com")]
         (snd (deleteAll "users" Users.after_create)))
  = Return (Some []) /\
  (forall ks,
      encode_keys
        (map (fun kv =>
                [VStr "users"; VStr (getKeysWithIndexes "users" (fst kv));
                 snd kv])
             [("email", VStr "a@x.com")]) = Some ks ->
      fst (Users.findOne [("email", VStr "a@x.com")]
             (snd (deleteAll "users" Users.after_create)))
      = Return None).
Proof.
  apply (after_deleteAll_nothing_is_found zod_uuid Users.schema "users"
           [("email", VStr "a@x.com")] Users.after_create).
  - discriminate.
  - reflexivity.
Defined.

(** ** A record that brings its own identifier *)

Lemma own_none_not_in (o : record) k : ~ In k (map fst o) -> own o k = None.
Proof.
  induction o as [| [k' v'] o IH]; intros H; simpl; [reflexivity |].
  destruct (String.eqb k' k) eqn:E.
  - apply String.eqb_eq in E. subst k'. exfalso. apply H. now left.
  - apply IH. intros Hin. apply H. now right.
Qed.

Lemma get_spread_other : forall (extra base : record) k,
  own extra k = None -> get (spread base extra) k = get base k.
Proof.
  unfold spread.
  induction extra as [| [k1 v1] extra IH]; intros base k H; simpl in *;
    [reflexivity |].
  destruct (String.eqb k1 k) eqn:E; [discriminate |].
  rewrite IH by exact H. apply get_set_field_other.
  intros ->. now rewrite String.eqb_refl in E.
Qed.

Lemma get_spread : forall (extra base : record) k v,
  NoDup (map fst extra) ->
  own extra k = Some v ->
  get (spread base extra) k = v.
Proof.
  induction extra as [| [k1 v1] extra IH]; intros base k v Hn H;
    simpl in H; [discriminate |].
  inversion Hn as [| ? ? Hk Hn']; subst.
  destruct (String.eqb k1 k) eqn:E.
  - apply String.eqb_eq in E. subst k1. inversion H; subst v1.
    change (get (spread (set_field base k v) extra) k = v).
    rewrite get_spread_other by now apply own_none_not_in.
    apply get_set_field.
  - change (get (spread (set_field base k1 v1) extra) k = v).
    now apply IH.
Qed.

(** X17.  [create] writes [{ id, ...data }]: when the input record carries
    an [id] of its own (validation lets fields the schema does not declare
    pass), that value replaces the generated identifier.  If the [create]
    commits and the value is a string, the record is stored under that
    string and holds it as its [id]. *)
Theorem create_keeps_an_id_supplied_in_the_data :
  forall schema name primaryIndexes data id now w v w' s,
    NoDup (map fst data) ->
    own data "id" = Some (VStr s) ->
    create schema name primaryIndexes data id now w
    = (Return (CommitOk v), w') ->
    get (newRecord id data now) "id" = VStr s /\
    kv_get (kv w') (physicalKey name "id" s)
    = Some (newRecord id data now).
Proof.
  intros schema name primaryIndexes data id now w v w' s Hn Ho Hc.
  assert (Hg : get (newRecord id data now) "id" = VStr s).
  { unfold newRecord. rewrite get_updateTimestamps_other by discriminate.
    now apply get_spread. }
  split; [exact Hg |].
  apply create_returns in Hc. destruct Hc as [_ Hp].
  apply (performTransaction_set_stores _ _ _ _ _ _ _ Hp "id" s
           (id_in_schemaPrimaryIndexes primaryIndexes)).
  fold (newRecord id data now). now rewrite Hg.
Qed.

Lemma create_keeps_an_id_supplied_in_the_data_witness :
  let data := [("email", VStr "c@x.com"); ("id", VStr "mine")] in
  let w' := snd (Users.create data Users.U2 2000 Users.after_create) in
  get (newRecord Users.U2 data 2000) "id" = VStr "mine" /\
  kv_get (kv w') (physicalKey "users" "id" "mine")
  = Some (newRecord Users.U2 data 2000).
Proof.
  apply (create_keeps_an_id_supplied_in_the_data Users.schema Users.name
           Users.primaryIndexes
           [("email", VStr "c@x.com"); ("id", VStr "mine")] Users.U2 2000
           Users.after_create 2%N).
  - repeat constructor; simpl; intuition discriminate.
  - reflexivity.
  - vm_compute. reflexivity.
Defined.
